(** * movies_sandbox_db: the normalisation pipeline of [src/data_pipeline.py]

    A shallow embedding of [parse_json_string] and of the data
    transformation part of [main] (lines 93-137), with the properties of
    the specification settled against it.

    Conventions of the embedding.
    - A Python [str] is a [string]: the bytes of its UTF-8 encoding.
    - A cell of the source table is a [cell]: text, an integer, or the
      missing value NaN that [read_csv] puts in an empty field (a float
      other than NaN is not represented; the pipeline only copies such
      values).
    - A value built by [json.loads] is a [json].  Integers are [Z]; a float
      is kept as the text of its literal.
    - Exceptions are values of [exn]; code that can raise returns a
      [result].  The lists that [main] appends to live in a [state] that is
      threaded through the row loop and survives a raised exception, as the
      Python lists do.
    - [json.loads], [drop_duplicates], [set_index] and [to_datetime] belong
      to the Python library and to pandas; they are embedded here from their
      documented behaviour, on the values described above.  Rows are
      compared for [drop_duplicates] by equality of their values.  The
      limits of the interpreter (depth of recursion, memory, length of an
      integer literal) are not part of the embedding.
    - The log holds the lines that the row handler and the handler of the
      run print; the messages of progress are left out. *)

From Stdlib Require Import List String Ascii ZArith Bool Lia Arith.
Import ListNotations.
Local Open Scope string_scope.
Local Open Scope Z_scope.
Local Open Scope list_scope.

Set Implicit Arguments.
Set Warnings "-register-all".

(** ** Values *)

Inductive json : Type :=
| JNull
| JBool (b : bool)
| JInt (z : Z)
| JFloat (literal : string)
| JStr (s : string)
| JArr (items : list json)
| JObj (pairs : list (string * json)).

Inductive cell : Type :=
| CNaN
| CInt (z : Z)
| CStr (s : string).

(** The name Python prints for the type of a value. *)
Definition json_type_name (v : json) : string :=
  match v with
  | JNull => "NoneType"
  | JBool _ => "bool"
  | JInt _ => "int"
  | JFloat _ => "float"
  | JStr _ => "str"
  | JArr _ => "list"
  | JObj _ => "dict"
  end.

Definition cell_type_name (c : cell) : string :=
  match c with
  | CNaN => "float"
  | CInt _ => "int"
  | CStr _ => "str"
  end.

(** ** Exceptions *)

Inductive exn : Type :=
| KeyError (key : string)
| AttributeError (type_name attribute : string)
| TypeError_not_iterable (type_name : string)
| TypeError_not_subscriptable (type_name : string)
| TypeError_bad_index (type_name : string)
| TypeError_unhashable (type_name : string)
| RecursionError.

Inductive result (A : Type) : Type :=
| Ok (a : A)
| Raise (e : exn).
Arguments Ok {A} a.
Arguments Raise {A} e.

(** ** The JSON decoder ([json.loads])

    Follows [json/decoder.py] and [json/scanner.py]: [scanstring],
    [match_number], [scan_once], [JSONArray], [JSONObject], [decode].
    A [JSONDecodeError] is [DecodeError]; the recursion of the decoder is
    bounded by a fuel that [fuel_suffices] shows is never exhausted. *)

Inductive outcome (A : Type) : Type :=
| Done (a : A)
| DecodeError
| OutOfFuel.
Arguments Done {A} a.
Arguments DecodeError {A}.
Arguments OutOfFuel {A}.

(** The double quote, character 34. *)
Definition double_quote : ascii := "034"%char.

Definition is_ws (c : ascii) : bool :=
  (c =? " ")%char || (c =? "009")%char || (c =? "010")%char || (c =? "013")%char.

Fixpoint skip_ws (s : string) : string :=
  match s with
  | String c r => if is_ws c then skip_ws r else s
  | EmptyString => s
  end.

Definition is_digit (c : ascii) : bool :=
  let n := nat_of_ascii c in (48 <=? n)%nat && (n <=? 57)%nat.

Definition hex_value (c : ascii) : option N :=
  let n := N_of_ascii c in
  if (48 <=? n)%N && (n <=? 57)%N then Some (n - 48)%N
  else if (65 <=? n)%N && (n <=? 70)%N then Some (n - 55)%N
  else if (97 <=? n)%N && (n <=? 102)%N then Some (n - 87)%N
  else None.

Definition decode_uXXXX (a b c d : ascii) : option N :=
  match hex_value a, hex_value b, hex_value c, hex_value d with
  | Some x, Some y, Some z, Some w => Some (((x * 16 + y) * 16 + z) * 16 + w)%N
  | _, _, _, _ => None
  end.

(** [chr(uni)] as the bytes of its UTF-8 encoding (a lone surrogate takes
    the three bytes of its code, as under [surrogatepass]). *)
Definition byte (n : N) : ascii := ascii_of_N n.

Definition chr (u : N) : string :=
  if (u <? 128)%N then String (byte u) ""
  else if (u <? 2048)%N then
    String (byte (192 + u / 64)) (String (byte (128 + u mod 64)) "")
  else if (u <? 65536)%N then
    String (byte (224 + u / 4096))
      (String (byte (128 + (u / 64) mod 64)) (String (byte (128 + u mod 64)) ""))
  else
    String (byte (240 + u / 262144))
      (String (byte (128 + (u / 4096) mod 64))
         (String (byte (128 + (u / 64) mod 64)) (String (byte (128 + u mod 64)) ""))).

(** The table [BACKSLASH] of one-letter escapes. *)
Definition backslash (esc : ascii) : option ascii :=
  if (esc =? double_quote)%char then Some double_quote
  else if (esc =? "\")%char then Some "\"%char
  else if (esc =? "/")%char then Some "/"%char
  else if (esc =? "b")%char then Some "008"%char
  else if (esc =? "f")%char then Some "012"%char
  else if (esc =? "n")%char then Some "010"%char
  else if (esc =? "r")%char then Some "013"%char
  else if (esc =? "t")%char then Some "009"%char
  else None.

Definition prepend (chunk : string) (r : option (string * string))
  : option (string * string) :=
  match r with
  | Some (content, rest) => Some ((chunk ++ content)%string, rest)
  | None => None
  end.

(** [scanstring s]: [s] starts after the opening quote; the result is the
    decoded content and what follows the closing quote.  Strict mode: a
    control character inside the string is an error. *)
Fixpoint scanstring (s : string) : option (string * string) :=
  match s with
  | EmptyString => None
  | String c rest =>
      if (c =? double_quote)%char then Some ("", rest)
      else if (c =? "\")%char then
        match rest with
        | EmptyString => None
        | String esc rest1 =>
            if (esc =? "u")%char then
              match rest1 with
              | String h1 (String h2 (String h3 (String h4 rest2))) =>
                  match decode_uXXXX h1 h2 h3 h4 with
                  | None => None
                  | Some uni =>
                      if (55296 <=? uni)%N && (uni <=? 56319)%N then
                        match rest2 with
                        | String b (String u (String g1 (String g2 (String g3 (String g4 rest3))))) =>
                            if (b =? "\")%char && (u =? "u")%char then
                              match decode_uXXXX g1 g2 g3 g4 with
                              | None => None
                              | Some uni2 =>
                                  if (56320 <=? uni2)%N && (uni2 <=? 57343)%N then
                                    prepend
                                      (chr (65536 + ((uni - 55296) * 1024 + (uni2 - 56320))))
                                      (scanstring rest3)
                                  else prepend (chr uni) (scanstring rest2)
                              end
                            else prepend (chr uni) (scanstring rest2)
                        | _ => prepend (chr uni) (scanstring rest2)
                        end
                      else prepend (chr uni) (scanstring rest2)
                  end
              | _ => None
              end
            else
              match backslash esc with
              | Some ch => prepend (String ch "") (scanstring rest1)
              | None => None
              end
        end
      else if (N_of_ascii c <? 32)%N then None
      else prepend (String c "") (scanstring rest)
  end.

(** [NUMBER_RE]: an optional minus sign and an integer part, then an
    optional fraction, then an optional exponent; the longest match. *)
Fixpoint span_digits (s : string) : string * string :=
  match s with
  | String c r =>
      if is_digit c then let (d, rest) := span_digits r in (String c d, rest)
      else ("", s)
  | EmptyString => ("", s)
  end.

Definition digit_value (c : ascii) : Z := Z.of_nat (nat_of_ascii c) - 48.

Fixpoint int_of_digits (acc : Z) (s : string) : Z :=
  match s with
  | String c r => int_of_digits (acc * 10 + digit_value c) r
  | EmptyString => acc
  end.

(** The integer part: ["0"], or a non-zero digit followed by digits. *)
Definition match_integer (s : string) : option (string * string) :=
  match s with
  | String c r =>
      if (c =? "0")%char then Some ("0", r)
      else if is_digit c then let (d, rest) := span_digits r in Some (String c d, rest)
      else None
  | EmptyString => None
  end.

(** The optional fraction: a dot followed by at least one digit. *)
Definition match_frac (s : string) : string * string :=
  match s with
  | String c r =>
      if (c =? ".")%char then
        match span_digits r with
        | (EmptyString, _) => ("", s)
        | (d, rest) => (String c d, rest)
        end
      else ("", s)
  | EmptyString => ("", s)
  end.

(** The optional exponent: [e] or [E], an optional sign, at least one digit. *)
Definition match_exp (s : string) : string * string :=
  match s with
  | String c r =>
      if (c =? "e")%char || (c =? "E")%char then
        match r with
        | String sg r' =>
            if (sg =? "-")%char || (sg =? "+")%char then
              match span_digits r' with
              | (EmptyString, _) => ("", s)
              | (d, rest) => (String c (String sg d), rest)
              end
            else
              match span_digits r with
              | (EmptyString, _) => ("", s)
              | (d, rest) => (String c d, rest)
              end
        | EmptyString => ("", s)
        end
      else ("", s)
  | EmptyString => ("", s)
  end.

Definition match_number (s : string) : option (json * string) :=
  let (neg, s1) :=
    match s with
    | String c r => if (c =? "-")%char then (true, r) else (false, s)
    | EmptyString => (false, s)
    end in
  match match_integer s1 with
  | None => None
  | Some (integer, s2) =>
      let (frac, s3) := match_frac s2 in
      let (exp, s4) := match_exp s3 in
      let sign := if neg then "-" else "" in
      match frac, exp with
      | EmptyString, EmptyString =>
          let n := int_of_digits 0 integer in
          Some (JInt (if neg then - n else n), s4)
      | _, _ => Some (JFloat (sign ++ integer ++ frac ++ exp)%string, s4)
      end
  end.

(** [s[idx:idx + len(w)] == w], giving what follows the word. *)
Fixpoint strip_prefix (w s : string) : option string :=
  match w, s with
  | EmptyString, _ => Some s
  | String a w', String b s' => if (a =? b)%char then strip_prefix w' s' else None
  | String _ _, EmptyString => None
  end.

(** [dict(pairs)]: a later value of a key replaces the earlier one in place. *)
Fixpoint dict_set (k : string) (v : json) (d : list (string * json))
  : list (string * json) :=
  match d with
  | [] => [(k, v)]
  | (k', v') :: d' =>
      if String.eqb k k' then (k, v) :: d' else (k', v') :: dict_set k v d'
  end.

Definition dict (pairs : list (string * json)) : list (string * json) :=
  fold_left (fun d kv => dict_set (fst kv) (snd kv) d) pairs [].

(** The constants and numbers of [_scan_once], tried after the string,
    object and array cases. *)
Definition scan_atom (s : string) : outcome (json * string) :=
  match strip_prefix "null" s with
  | Some r => Done (JNull, r)
  | None =>
  match strip_prefix "true" s with
  | Some r => Done (JBool true, r)
  | None =>
  match strip_prefix "false" s with
  | Some r => Done (JBool false, r)
  | None =>
  match match_number s with
  | Some vr => Done vr
  | None =>
  match strip_prefix "NaN" s with
  | Some r => Done (JFloat "NaN", r)
  | None =>
  match strip_prefix "Infinity" s with
  | Some r => Done (JFloat "Infinity", r)
  | None =>
  match strip_prefix "-Infinity" s with
  | Some r => Done (JFloat "-Infinity", r)
  | None => DecodeError
  end end end end end end end.

Fixpoint scan_once (fuel : nat) (s : string) : outcome (json * string) :=
  match fuel with
  | O => OutOfFuel
  | S n =>
      match s with
      | EmptyString => DecodeError
      | String c r =>
          if (c =? double_quote)%char then
            match scanstring r with
            | Some (str, rest) => Done (JStr str, rest)
            | None => DecodeError
            end
          else if (c =? "{")%char then
            match skip_ws r with
            | String c1 r1 =>
                if (c1 =? "}")%char then Done (JObj [], r1)
                else if (c1 =? double_quote)%char then JSONObject n r1 []
                else DecodeError
            | EmptyString => DecodeError
            end
          else if (c =? "[")%char then
            match skip_ws r with
            | String c1 r1 =>
                if (c1 =? "]")%char then Done (JArr [], r1)
                else JSONArray n (String c1 r1) []
            | EmptyString => DecodeError
            end
          else scan_atom s
      end
  end

(** The loop of [JSONArray]: [s] is at the start of a value, [values] holds
    the values read so far, last first. *)
with JSONArray (fuel : nat) (s : string) (values : list json)
  : outcome (json * string) :=
  match fuel with
  | O => OutOfFuel
  | S n =>
      match scan_once n s with
      | Done (value, rest) =>
          match skip_ws rest with
          | String c r =>
              if (c =? "]")%char then Done (JArr (rev (value :: values)), r)
              else if (c =? ",")%char then JSONArray n (skip_ws r) (value :: values)
              else DecodeError
          | EmptyString => DecodeError
          end
      | DecodeError => DecodeError
      | OutOfFuel => OutOfFuel
      end
  end

(** The loop of [JSONObject]: [s] is after the opening quote of a key,
    [pairs] holds the pairs read so far, last first. *)
with JSONObject (fuel : nat) (s : string) (pairs : list (string * json))
  : outcome (json * string) :=
  match fuel with
  | O => OutOfFuel
  | S n =>
      match scanstring s with
      | None => DecodeError
      | Some (key, rest) =>
          match skip_ws rest with
          | String c r =>
              if (c =? ":")%char then
                match scan_once n (skip_ws r) with
                | Done (value, rest1) =>
                    match skip_ws rest1 with
                    | String c1 r1 =>
                        if (c1 =? "}")%char then
                          Done (JObj (dict (rev ((key, value) :: pairs))), r1)
                        else if (c1 =? ",")%char then
                          match skip_ws r1 with
                          | String c2 r2 =>
                              if (c2 =? double_quote)%char then
                                JSONObject n r2 ((key, value) :: pairs)
                              else DecodeError
                          | EmptyString => DecodeError
                          end
                        else DecodeError
                    | EmptyString => DecodeError
                    end
                | DecodeError => DecodeError
                | OutOfFuel => OutOfFuel
                end
              else DecodeError
          | EmptyString => DecodeError
          end
      end
  end.

Definition fuel_for (s : string) : nat := 2 * String.length s + 2.

(** [JSONDecoder.decode]: one value, white space around it, nothing else. *)
Definition decode (s : string) : outcome json :=
  match scan_once (fuel_for s) (skip_ws s) with
  | Done (obj, rest) =>
      match skip_ws rest with
      | EmptyString => Done obj
      | String _ _ => DecodeError
      end
  | DecodeError => DecodeError
  | OutOfFuel => OutOfFuel
  end.

(** [json.loads] on a [str]: a leading byte order mark is refused. *)
Definition json_loads (s : string) : outcome json :=
  match strip_prefix (String (byte 239) (String (byte 187) (String (byte 191) ""))) s with
  | Some _ => DecodeError
  | None => decode s
  end.

(** What a scanner gives with enough fuel: a result, and on success a
    strictly shorter remainder. *)
Definition progresses (s : string) (r : outcome (json * string)) : Prop :=
  r <> OutOfFuel /\
  forall v rest, r = Done (v, rest) -> (String.length rest < String.length s)%nat.

(** ** [parse_json_string] (lines 40-55) *)

(** [s.replace(old, new)] for one-character [old] and [new]. *)
Fixpoint replace (old new : ascii) (s : string) : string :=
  match s with
  | String c r => String (if (c =? old)%char then new else c) (replace old new r)
  | EmptyString => EmptyString
  end.

(** The argument is whatever the cell holds.  Only [json.JSONDecodeError] is
    caught; a value that is not a [str] has no [replace]. *)
Definition parse_json_string (json_str : cell) : result json :=
  match json_str with
  | CStr s =>
      match json_loads (replace "'" double_quote s) with
      | Done v => Ok v
      | DecodeError => Ok (JArr [])
      | OutOfFuel => Raise RecursionError
      end
  | _ => Raise (AttributeError (cell_type_name json_str) "replace")
  end.

(** ** Rows of the source table and Python's operations on parsed values *)

(** A row as [iterrows] gives it: column label and value. *)
Definition Series := list (string * cell).
Definition DataFrame := list Series.

(** [row[key]] *)
Fixpoint Series_getitem (row : Series) (key : string) : result cell :=
  match row with
  | [] => Raise (KeyError key)
  | (k, v) :: r => if String.eqb k key then Ok v else Series_getitem r key
  end.

Fixpoint dict_get (d : list (string * json)) (key : string) : option json :=
  match d with
  | [] => None
  | (k, v) :: r => if String.eqb k key then Some v else dict_get r key
  end.

(** [v[key]] for a string [key] *)
Definition getitem (v : json) (key : string) : result json :=
  match v with
  | JObj d =>
      match dict_get d key with
      | Some x => Ok x
      | None => Raise (KeyError key)
      end
  | JStr _ => Raise (TypeError_bad_index "str")
  | JArr _ => Raise (TypeError_bad_index "list")
  | _ => Raise (TypeError_not_subscriptable (json_type_name v))
  end.

Fixpoint characters (s : string) : list json :=
  match s with
  | String c r => JStr (String c "") :: characters r
  | EmptyString => []
  end.

(** What [for x in v] goes through: the items of a list, the keys of a
    dict, the characters of a string (the loop bodies below raise on the
    first character, so only whether there is one matters). *)
Definition iter (v : json) : result (list json) :=
  match v with
  | JArr items => Ok items
  | JObj d => Ok (map (fun kv => JStr (fst kv)) d)
  | JStr s => Ok (characters s)
  | _ => Raise (TypeError_not_iterable (json_type_name v))
  end.

(** ** The state of the row loop (lines 98-101 and the log) *)

Inductive log_line : Type :=
| RowError (movie_id : cell) (cause : exn)
| Unrecoverable (cause : exn).

Record state : Type := mkState {
  production_companies_list : list (json * json);
  genres_list : list (json * json);
  movie_genres_list : list (cell * json);
  movie_production_companies_list : list (cell * json);
  log : list log_line
}.

Definition initial : state := mkState [] [] [] [] [].

(** Computations that change the state and may raise; the state reached
    when an exception is raised is kept. *)
Definition M (A : Type) : Type := state -> state * result A.

Definition ret {A} (a : A) : M A := fun st => (st, Ok a).

Definition bind {A B} (m : M A) (k : A -> M B) : M B :=
  fun st =>
    match m st with
    | (st', Ok a) => k a st'
    | (st', Raise e) => (st', Raise e)
    end.

Definition lift {A} (r : result A) : M A := fun st => (st, r).

Declare Scope pipeline_scope.
Delimit Scope pipeline_scope with pipeline.
Notation "x <- m ;; k" := (bind m (fun x => k))
  (at level 61, m at next level, right associativity) : pipeline_scope.
Notation "m ;;; k" := (bind m (fun _ => k))
  (at level 61, right associativity) : pipeline_scope.
Local Open Scope pipeline_scope.

Fixpoint for_each {A} (items : list A) (body : A -> M unit) : M unit :=
  match items with
  | [] => ret tt
  | x :: rest => body x ;;; for_each rest body
  end.

Definition genres_list_append (r : json * json) : M unit :=
  fun st => (mkState (production_companies_list st) (genres_list st ++ [r])
               (movie_genres_list st) (movie_production_companies_list st) (log st),
             Ok tt).

Definition movie_genres_list_append (r : cell * json) : M unit :=
  fun st => (mkState (production_companies_list st) (genres_list st)
               (movie_genres_list st ++ [r]) (movie_production_companies_list st) (log st),
             Ok tt).

Definition production_companies_list_append (r : json * json) : M unit :=
  fun st => (mkState (production_companies_list st ++ [r]) (genres_list st)
               (movie_genres_list st) (movie_production_companies_list st) (log st),
             Ok tt).

Definition movie_production_companies_list_append (r : cell * json) : M unit :=
  fun st => (mkState (production_companies_list st) (genres_list st)
               (movie_genres_list st) (movie_production_companies_list st ++ [r]) (log st),
             Ok tt).

Definition print (l : log_line) : M unit :=
  fun st => (mkState (production_companies_list st) (genres_list st)
               (movie_genres_list st) (movie_production_companies_list st) (log st ++ [l]),
             Ok tt).

(** ** The row loop (lines 104-124) *)

(** Lines 111-114. *)
Definition genre_body (movie_id : cell) (genre : json) : M unit :=
  genre_id <- lift (getitem genre "id") ;;
  genre_name <- lift (getitem genre "name") ;;
  genres_list_append (genre_id, genre_name) ;;;
  movie_genres_list_append (movie_id, genre_id).

(** Lines 119-122. *)
Definition company_body (movie_id : cell) (company : json) : M unit :=
  company_id <- lift (getitem company "id") ;;
  company_name <- lift (getitem company "name") ;;
  production_companies_list_append (company_id, company_name) ;;;
  movie_production_companies_list_append (movie_id, company_id).

(** Lines 109-114. *)
Definition process_genres (row : Series) (movie_id : cell) : M unit :=
  field <- lift (Series_getitem row "genres") ;;
  genres_data <- lift (parse_json_string field) ;;
  items <- lift (iter genres_data) ;;
  for_each items (genre_body movie_id).

(** Lines 117-122. *)
Definition process_companies (row : Series) (movie_id : cell) : M unit :=
  field <- lift (Series_getitem row "production_companies") ;;
  companies_data <- lift (parse_json_string field) ;;
  items <- lift (iter companies_data) ;;
  for_each items (company_body movie_id).

(** The body of the [try] (lines 106-122). *)
Definition row_body (row : Series) : M unit :=
  movie_id <- lift (Series_getitem row "id") ;;
  process_genres row movie_id ;;;
  process_companies row movie_id.

(** Lines 105-124: the [try] and its handler.  The handler reads
    [row['id']] again to build its message; what that raises is not caught
    by the handler's own [try]. *)
Definition process_row (row : Series) : M unit :=
  fun st =>
    match row_body row st with
    | (st', Ok tt) => (st', Ok tt)
    | (st', Raise e) =>
        (movie_id <- lift (Series_getitem row "id") ;;
         print (RowError movie_id e)) st'
    end.

(** Line 104: the loop over the rows, left at the first exception that
    escapes a row. *)
Definition row_loop (movies_df : DataFrame) : M unit :=
  for_each movies_df process_row.

(** ** Building the tables (lines 127-137) *)

(** Equality of the values of a column. *)
Definition cell_eqb (a b : cell) : bool :=
  match a, b with
  | CNaN, CNaN => true
  | CInt x, CInt y => Z.eqb x y
  | CStr x, CStr y => String.eqb x y
  | _, _ => false
  end.

Fixpoint json_eqb (a b : json) : bool :=
  match a, b with
  | JNull, JNull => true
  | JBool x, JBool y => Bool.eqb x y
  | JInt x, JInt y => Z.eqb x y
  | JFloat x, JFloat y => String.eqb x y
  | JStr x, JStr y => String.eqb x y
  | JArr x, JArr y =>
      (fix all2 (l1 l2 : list json) : bool :=
         match l1, l2 with
         | [], [] => true
         | a1 :: r1, a2 :: r2 => json_eqb a1 a2 && all2 r1 r2
         | _, _ => false
         end) x y
  | JObj x, JObj y =>
      (fix all2 (l1 l2 : list (string * json)) : bool :=
         match l1, l2 with
         | [], [] => true
         | (k1, v1) :: r1, (k2, v2) :: r2 =>
             String.eqb k1 k2 && json_eqb v1 v2 && all2 r1 r2
         | _, _ => false
         end) x y
  | _, _ => false
  end.

Definition pair_eqb {A B} (eqa : A -> A -> bool) (eqb : B -> B -> bool)
  (p q : A * B) : bool :=
  eqa (fst p) (fst q) && eqb (snd p) (snd q).

Section DropDuplicates.
Variables A K : Type.
Variable eqb : K -> K -> bool.
Variable key : A -> K.

(** [drop_duplicates(subset=key)], [keep='first']: a row is dropped when
    an earlier row has the same key. *)
Fixpoint drop_seen (seen : list K) (rows : list A) : list A :=
  match rows with
  | [] => []
  | x :: r =>
      if existsb (eqb (key x)) seen then drop_seen seen r
      else x :: drop_seen (key x :: seen) r
  end.

Definition drop_duplicates_subset (rows : list A) : list A := drop_seen [] rows.
End DropDuplicates.

(** [drop_duplicates()]: the key is the whole row. *)
Definition drop_duplicates {A} (eqb : A -> A -> bool) (rows : list A) : list A :=
  drop_duplicates_subset eqb (fun x => x) rows.

(** The values of a column are hashed to find the duplicates; a list or a
    dict is not hashable. *)
Fixpoint hash_column (col : list json) : result unit :=
  match col with
  | [] => Ok tt
  | JArr _ :: _ => Raise (TypeError_unhashable "list")
  | JObj _ :: _ => Raise (TypeError_unhashable "dict")
  | _ :: r => hash_column r
  end.

(** [pd.DataFrame(records).drop_duplicates().set_index(index)] for the
    records of an entity (lines 127-128).  A frame built from no record
    has no column, and [set_index] raises. *)
Definition entity_table (index : string) (records : list (json * json))
  : result (list (json * json)) :=
  match hash_column (map fst records) with
  | Raise e => Raise e
  | Ok _ =>
      match hash_column (map snd records) with
      | Raise e => Raise e
      | Ok _ =>
          match drop_duplicates (pair_eqb json_eqb json_eqb) records with
          | [] => Raise (KeyError index)
          | t => Ok t
          end
      end
  end.

(** [pd.DataFrame(records).drop_duplicates()] for the pairs of a relation
    (lines 129-130). *)
Definition bridge_table (records : list (cell * json)) : result (list (cell * json)) :=
  match hash_column (map snd records) with
  | Raise e => Raise e
  | Ok _ => Ok (drop_duplicates (pair_eqb cell_eqb json_eqb) records)
  end.

(** *** The release year (line 136) *)

Definition is_leap (y : Z) : bool :=
  (y mod 4 =? 0) && (negb (y mod 100 =? 0) || (y mod 400 =? 0)).

Definition days_in_month (y m : Z) : Z :=
  if m =? 2 then (if is_leap y then 29 else 28)
  else if (m =? 4) || (m =? 6) || (m =? 9) || (m =? 11) then 30
  else 31.

Record date : Type := mkDate { dt_year : Z; dt_month : Z; dt_day : Z }.

Definition all_digits (s : string) : bool :=
  match span_digits s with
  | (_, EmptyString) => true
  | _ => false
  end.

(** A calendar date written [YYYY-MM-DD]. *)
Definition parse_date (s : string) : option date :=
  if (String.length s =? 10)%nat then
    let y := substring 0 4 s in
    let m := substring 5 2 s in
    let d := substring 8 2 s in
    if all_digits y && String.eqb (substring 4 1 s) "-" && all_digits m
       && String.eqb (substring 7 1 s) "-" && all_digits d then
      let y := int_of_digits 0 y in
      let m := int_of_digits 0 m in
      let d := int_of_digits 0 d in
      if (1 <=? m) && (m <=? 12) && (1 <=? d) && (d <=? days_in_month y m)
      then Some (mkDate y m d) else None
    else None
  else None.

Definition date_leb (a b : date) : bool :=
  (dt_year a <? dt_year b)
  || ((dt_year a =? dt_year b)
      && ((dt_month a <? dt_month b)
          || ((dt_month a =? dt_month b) && (dt_day a <=? dt_day b)))).

(** The days that a nanosecond time stamp can hold at midnight. *)
Definition in_bounds (d : date) : bool :=
  date_leb (mkDate 1677 9 22) d && date_leb d (mkDate 2262 4 11).

(** The calendar date of a day counted from 1970-01-01. *)
Definition civil_from_days (days : Z) : date :=
  let z := days + 719468 in
  let era := z / 146097 in
  let doe := z - era * 146097 in
  let yoe := (doe - doe / 1460 + doe / 36524 - doe / 146096) / 365 in
  let doy := doe - (365 * yoe + yoe / 4 - yoe / 100) in
  let mp := (5 * doy + 2) / 153 in
  let d := doy - (153 * mp + 2) / 5 + 1 in
  let m := if mp <? 10 then mp + 3 else mp - 9 in
  mkDate (yoe + era * 400 + (if m <=? 2 then 1 else 0)) m d.

(** [pd.to_datetime(_, errors='coerce')] on one value, [None] for [NaT].
    Text is a date written [YYYY-MM-DD] within the bounds of a time stamp,
    or is coerced to [NaT]; the missing value gives [NaT]; an integer
    counts nanoseconds from 1970-01-01. *)
Definition to_datetime (c : cell) : option date :=
  match c with
  | CStr s =>
      match parse_date s with
      | Some d => if in_bounds d then Some d else None
      | None => None
      end
  | CNaN => None
  | CInt z =>
      if (- 2 ^ 63 <? z) && (z <? 2 ^ 63)
      then Some (civil_from_days (z / 86400000000000)) else None
  end.

(** [.dt.year], [None] for the missing year of [NaT]. *)
Definition year_of (release_date : cell) : option Z :=
  option_map dt_year (to_datetime release_date).

(** *** The fact table (lines 134-137) *)

Record movie : Type := mkMovie {
  movie_id : cell;
  title : cell;
  release_date : cell;
  budget : cell;
  revenue : cell;
  popularity : cell;
  year : option Z
}.

Definition rbind {A B} (r : result A) (k : A -> result B) : result B :=
  match r with
  | Ok a => k a
  | Raise e => Raise e
  end.

(** Lines 134-136 on one row: the six columns, [id] renamed, the year. *)
Definition select_columns (row : Series) : result movie :=
  rbind (Series_getitem row "id") (fun i =>
  rbind (Series_getitem row "title") (fun t =>
  rbind (Series_getitem row "release_date") (fun d =>
  rbind (Series_getitem row "budget") (fun b =>
  rbind (Series_getitem row "revenue") (fun r =>
  rbind (Series_getitem row "popularity") (fun p =>
  Ok (mkMovie i t d b r p (year_of d)))))))).

Fixpoint select_all (movies_df : DataFrame) : result (list movie) :=
  match movies_df with
  | [] => Ok []
  | row :: rest =>
      rbind (select_columns row) (fun m =>
      rbind (select_all rest) (fun ms => Ok (m :: ms)))
  end.

Definition movies_table (movies_df : DataFrame) : result (list movie) :=
  rbind (select_all movies_df) (fun ms =>
  Ok (drop_duplicates_subset cell_eqb movie_id ms)).

(** ** The run (lines 93-137 and the handler of line 175) *)

Record tables : Type := mkTables {
  movies : list movie;
  production_companies : list (json * json);
  genres : list (json * json);
  movie_genres : list (cell * json);
  movie_production_companies : list (cell * json)
}.

(** Lines 127-137 on the lists that the loop has filled. *)
Definition build_tables (movies_df : DataFrame) (st : state) : result tables :=
  rbind (entity_table "company_id" (production_companies_list st)) (fun pc =>
  rbind (entity_table "genre_id" (genres_list st)) (fun g =>
  rbind (bridge_table (movie_genres_list st)) (fun mg =>
  rbind (bridge_table (movie_production_companies_list st)) (fun mpc =>
  rbind (movies_table movies_df) (fun m =>
  Ok (mkTables m pc g mg mpc)))))).

(** The log and the tables written, or the exception on which the run
    exits with code 1. *)
Definition main (movies_df : DataFrame) : list log_line * result tables :=
  match row_loop movies_df initial with
  | (st, Raise e) => (log st ++ [Unrecoverable e], Raise e)
  | (st, Ok _) =>
      match build_tables movies_df st with
      | Ok t => (log st, Ok t)
      | Raise e => (log st ++ [Unrecoverable e], Raise e)
      end
  end.

(** ** What one row adds to the lists

    The effect of [process_row] written as a function of the row, against
    which the loop is compared in [process_row_spec]. *)

(** The id and the name read from a parsed item (lines 111-112, 119-120). *)
Definition entity_of (v : json) : result (json * json) :=
  rbind (getitem v "id") (fun i =>
  rbind (getitem v "name") (fun n => Ok (i, n))).

(** The entities of the items that come before the first item from which
    an id or a name cannot be read, and the exception raised there. *)
Fixpoint entities_until_failure (items : list json)
  : list (json * json) * option exn :=
  match items with
  | [] => ([], None)
  | v :: rest =>
      match entity_of v with
      | Ok e => let (es, r) := entities_until_failure rest in (e :: es, r)
      | Raise x => ([], Some x)
      end
  end.

(** The items that the loop over a column of the row goes through. *)
Definition field_items (row : Series) (column : string) : result (list json) :=
  rbind (Series_getitem row column) (fun field =>
  rbind (parse_json_string field) iter).

Record contribution : Type := mkContribution {
  new_genres : list (json * json);
  new_companies : list (json * json);
  raised : option exn
}.

Definition contribution_of (row : Series) : contribution :=
  match field_items row "genres" with
  | Raise e => mkContribution [] [] (Some e)
  | Ok items =>
      match entities_until_failure items with
      | (gs, Some e) => mkContribution gs [] (Some e)
      | (gs, None) =>
          match field_items row "production_companies" with
          | Raise e => mkContribution gs [] (Some e)
          | Ok items' =>
              let (cs, r) := entities_until_failure items' in
              mkContribution gs cs r
          end
      end
  end.

Definition pairs_of (movie_id : cell) (es : list (json * json)) : list (cell * json) :=
  map (fun e => (movie_id, fst e)) es.

Definition record (movie_id : cell) (c : contribution) (st : state) : state :=
  mkState
    (production_companies_list st ++ new_companies c)
    (genres_list st ++ new_genres c)
    (movie_genres_list st ++ pairs_of movie_id (new_genres c))
    (movie_production_companies_list st ++ pairs_of movie_id (new_companies c))
    (log st ++ match raised c with
               | Some e => [RowError movie_id e]
               | None => []
               end).

(** The state after the entities [es] of a row were recorded. *)
Definition add_genres (movie_id : cell) (es : list (json * json)) (st : state) : state :=
  mkState (production_companies_list st) (genres_list st ++ es)
    (movie_genres_list st ++ pairs_of movie_id es)
    (movie_production_companies_list st) (log st).

Definition add_companies (movie_id : cell) (es : list (json * json)) (st : state) : state :=
  mkState (production_companies_list st ++ es) (genres_list st)
    (movie_genres_list st)
    (movie_production_companies_list st ++ pairs_of movie_id es) (log st).

Definition finish (r : option exn) : result unit :=
  match r with
  | None => Ok tt
  | Some e => Raise e
  end.

(** The ids of the pairs of a relation are, in order, the ids of the
    records of its entity. *)
Definition in_step (st : state) : Prop :=
  map snd (movie_genres_list st) = map fst (genres_list st) /\
  map snd (movie_production_companies_list st) = map fst (production_companies_list st).

(** ** Ways of reading a table *)

(** The position of the first element that satisfies [f]. *)
Fixpoint index_where {A} (f : A -> bool) (l : list A) : option nat :=
  match l with
  | [] => None
  | x :: r => if f x then Some O else option_map S (index_where f r)
  end.

(** [table] holds each recorded row once, in the order in which the rows
    were first recorded. *)
Definition first_seen_once {A} (eqb : A -> A -> bool) (records table : list A) : Prop :=
  (forall p, In p records -> List.length (filter (eqb p) table) = 1%nat) /\
  (forall p, In p table -> In p records) /\
  (forall i j p q,
      (i < j)%nat -> nth_error table i = Some p -> nth_error table j = Some q ->
      exists a b, index_where (eqb p) records = Some a /\
                  index_where (eqb q) records = Some b /\ (a < b)%nat).


(** A parsed value of the shape that the loops expect: a list of dicts. *)
Definition is_list_of_objects (v : json) : bool :=
  match v with
  | JArr items => forallb (fun x => match x with JObj _ => true | _ => false end) items
  | _ => false
  end.



(** All the rows of a table have the same columns. *)
Definition same_columns (movies_df : DataFrame) : bool :=
  match movies_df with
  | [] => true
  | row :: rest =>
      forallb (fun r => if list_eq_dec string_dec (map fst r) (map fst row)
                        then true else false) rest
  end.

(** ** Sample rows *)

Definition source_row (id : Z) (release_date genres production_companies : string)
  : Series :=
  [("id", CInt id); ("title", CStr "Toy Story");
   ("release_date", CStr release_date); ("budget", CInt 30000000);
   ("revenue", CInt 373554033); ("popularity", CStr "21.946943");
   ("genres", CStr genres); ("production_companies", CStr production_companies)].

Definition animation : string := "[{'id': 16, 'name': 'Animation'}]".
Definition pixar : string := "[{'id': 3, 'name': 'Pixar'}]".

(** The example of the specification. *)
Definition toy_story : Series := source_row 862 "1995-10-30" animation pixar.

(** A genre without a name, and a well-formed company. *)
Definition nameless_genre : Series :=
  source_row 862 "1995-10-30" "[{'id': 16}]" pixar.

(** A well-formed genre followed by one without a name. *)
Definition second_genre_nameless : Series :=
  source_row 862 "1995-10-30" "[{'id': 16, 'name': 'Animation'}, {'id': 35}]" pixar.

(** A well-formed genre, and a company without a name after a well-formed one. *)
Definition second_company_nameless : Series :=
  source_row 862 "1995-10-30" animation "[{'id': 3, 'name': 'Pixar'}, {'id': 4}]".

(** A table that has no [id] column. *)
Definition no_id_column : DataFrame :=
  [[("title", CStr "Toy Story"); ("genres", CStr animation);
    ("production_companies", CStr pixar)];
   [("title", CStr "Jumanji"); ("genres", CStr "[{'id': 12, 'name': 'Adventure'}]");
    ("production_companies", CStr "[{'id': 559, 'name': 'TriStar Pictures'}]")]].

(** The same genre id under two names. *)
Definition two_names : DataFrame :=
  [source_row 862 "1995-10-30" animation pixar;
   source_row 8844 "1995-12-15" "[{'id': 16, 'name': 'Anime'}]" pixar].

(** The same movie id in two rows, and a genre twice in one list. *)
Definition repeated : DataFrame :=
  [source_row 862 "1995-10-30"
     "[{'id': 16, 'name': 'Animation'}, {'id': 35, 'name': 'Comedy'}, {'id': 16, 'name': 'Animation'}]"
     pixar;
   source_row 8844 "1995-12-15" "[{'id': 35, 'name': 'Comedy'}]" pixar;
   source_row 862 "" "[{'id': 16, 'name': 'Animation'}]" pixar].

(** The tables that the runs on [two_names] and on [repeated] write. *)
Definition fact_row (id : Z) (release_date : string) (year : option Z) : movie :=
  mkMovie (CInt id) (CStr "Toy Story") (CStr release_date) (CInt 30000000)
    (CInt 373554033) (CStr "21.946943") year.

Definition two_names_tables : tables :=
  mkTables
    [fact_row 862 "1995-10-30" (Some 1995); fact_row 8844 "1995-12-15" (Some 1995)]
    [(JInt 3, JStr "Pixar")]
    [(JInt 16, JStr "Animation"); (JInt 16, JStr "Anime")]
    [(CInt 862, JInt 16); (CInt 8844, JInt 16)]
    [(CInt 862, JInt 3); (CInt 8844, JInt 3)].

Definition repeated_tables : tables :=
  mkTables
    [fact_row 862 "1995-10-30" (Some 1995); fact_row 8844 "1995-12-15" (Some 1995)]
    [(JInt 3, JStr "Pixar")]
    [(JInt 16, JStr "Animation"); (JInt 35, JStr "Comedy")]
    [(CInt 862, JInt 16); (CInt 862, JInt 35); (CInt 8844, JInt 35)]
    [(CInt 862, JInt 3); (CInt 8844, JInt 3)].

(** ** The loop as a whole *)

Definition has_column (row : Series) (column : string) : bool :=
  match Series_getitem row column with
  | Ok _ => true
  | Raise _ => false
  end.

(** The line that the handler prints for a row, if any. *)
Definition row_lines (row : Series) : list log_line :=
  match Series_getitem row "id", raised (contribution_of row) with
  | Ok i, Some e => [RowError i e]
  | _, _ => []
  end.

(** The pairs that a row adds to the two relations. *)
Definition row_genre_pairs (row : Series) : list (cell * json) :=
  match Series_getitem row "id" with
  | Ok i => pairs_of i (new_genres (contribution_of row))
  | Raise _ => []
  end.

Definition row_company_pairs (row : Series) : list (cell * json) :=
  match Series_getitem row "id" with
  | Ok i => pairs_of i (new_companies (contribution_of row))
  | Raise _ => []
  end.

(** Every list of [st'] starts with the corresponding list of [st]. *)
Definition extends (st st' : state) : Prop :=
  exists pc g mg mpc lines,
    st' = mkState (production_companies_list st ++ pc) (genres_list st ++ g)
            (movie_genres_list st ++ mg) (movie_production_companies_list st ++ mpc)
            (log st ++ lines).

(** A row whose genres are written without any quoting, a row with no
    genres cell, and a row with no production companies cell. *)
Definition unquoted_genres : Series :=
  source_row 862 "1995-10-30" "[{id: 16, name: Animation}]" pixar.

Definition null_genres : Series :=
  [("id", CInt 862); ("title", CStr "Toy Story");
   ("release_date", CStr "1995-10-30"); ("budget", CInt 30000000);
   ("revenue", CInt 373554033); ("popularity", CStr "21.946943");
   ("genres", CNaN); ("production_companies", CStr pixar)].

Definition null_companies : Series :=
  [("id", CInt 862); ("title", CStr "Toy Story");
   ("release_date", CStr "1995-10-30"); ("budget", CInt 30000000);
   ("revenue", CInt 373554033); ("popularity", CStr "21.946943");
   ("genres", CStr animation); ("production_companies", CNaN)].

(** ** The tables as a whole *)

(** A value that can be hashed: neither a list nor a dict. *)
Definition is_scalar (v : json) : bool :=
  match v with
  | JArr _ | JObj _ => false
  | _ => true
  end.


(** The ids of the source rows, in source order. *)
Definition source_ids (movies_df : DataFrame) : list cell :=
  flat_map (fun row => match Series_getitem row "id" with
                       | Ok i => [i]
                       | Raise _ => []
                       end) movies_df.

(** ** The notation of the dataset and a clean source *)





















(** * Properties *)

Unset Implicit Arguments.

(** ** The decoder never runs out of fuel *)

Local Open Scope nat_scope.

Lemma skip_ws_length (s : string) : String.length (skip_ws s) <= String.length s.
Proof.
  induction s as [|c r IH]; simpl; [lia|].
  destruct (is_ws c); simpl; lia.
Qed.

Lemma prepend_some chunk r content rest :
  prepend chunk r = Some (content, rest) ->
  exists content', r = Some (content', rest).
Proof.
  destruct r as [[c' r']|]; simpl; [|discriminate].
  intros H; inversion H; subst; eauto.
Qed.

Lemma scanstring_length (s : string) :
  forall content rest,
    scanstring s = Some (content, rest) -> String.length rest < String.length s.
Proof.
  remember (String.length s) as n eqn:Hn.
  revert s Hn; induction n as [n IH] using lt_wf_ind; intros s Hn content rest H.
  assert (step : forall chunk r,
             String.length r < n ->
             prepend chunk (scanstring r) = Some (content, rest) ->
             String.length rest < String.length r).
  { intros chunk r Hr Hp. apply prepend_some in Hp as [c' Hp].
    eapply IH; [exact Hr | reflexivity | exact Hp]. }
  destruct s as [|c r]; cbn [scanstring] in H; [discriminate|].
  cbn [String.length] in Hn.
  destruct (c =? double_quote)%char.
  { inversion H; subst; cbn [String.length]; lia. }
  destruct (c =? "\")%char.
  - destruct r as [|esc r1]; [discriminate|]. cbn [String.length] in Hn.
    destruct (esc =? "u")%char.
    + destruct r1 as [|h1 [|h2 [|h3 [|h4 r2]]]]; try discriminate.
      cbn [String.length] in Hn.
      destruct (decode_uXXXX h1 h2 h3 h4) as [uni|]; [|discriminate].
      destruct ((55296 <=? uni)%N && (uni <=? 56319)%N).
      * destruct r2 as [|b [|u [|g1 [|g2 [|g3 [|g4 r3]]]]]];
          try (apply step in H; cbn [String.length] in *; lia).
        cbn [String.length] in Hn.
        destruct ((b =? "\")%char && (u =? "u")%char).
        -- destruct (decode_uXXXX g1 g2 g3 g4) as [uni2|]; [|discriminate].
           destruct ((56320 <=? uni2)%N && (uni2 <=? 57343)%N);
             apply step in H; cbn [String.length] in *; lia.
        -- apply step in H; cbn [String.length] in *; lia.
      * apply step in H; cbn [String.length] in *; lia.
    + destruct (backslash esc); [|discriminate].
      apply step in H; cbn [String.length] in *; lia.
  - destruct (N_of_ascii c <? 32)%N; [discriminate|].
    apply step in H; cbn [String.length] in *; lia.
Qed.

Lemma span_digits_length (s : string) :
  String.length (snd (span_digits s)) <= String.length s.
Proof.
  induction s as [|c r IH]; simpl; [lia|].
  destruct (is_digit c); simpl; [|lia].
  destruct (span_digits r); simpl in *; lia.
Qed.

Lemma match_integer_length s integer rest :
  match_integer s = Some (integer, rest) -> String.length rest < String.length s.
Proof.
  destruct s as [|c r]; simpl; [discriminate|].
  destruct (c =? "0")%char.
  - intros H; inversion H; subst; lia.
  - destruct (is_digit c); [|discriminate].
    pose proof (span_digits_length r) as L.
    destruct (span_digits r); intros H; inversion H; subst; simpl in *; lia.
Qed.

Lemma match_frac_length s : String.length (snd (match_frac s)) <= String.length s.
Proof.
  destruct s as [|c r]; simpl; [lia|].
  destruct (c =? ".")%char; simpl; [|lia].
  pose proof (span_digits_length r) as L.
  destruct (span_digits r) as [[|d ds] rest]; simpl in *; lia.
Qed.

Lemma match_exp_length s : String.length (snd (match_exp s)) <= String.length s.
Proof.
  destruct s as [|c r]; [simpl; lia|].
  unfold match_exp.
  destruct ((c =? "e")%char || (c =? "E")%char); [|simpl; lia].
  destruct r as [|sg r']; [simpl; lia|].
  destruct ((sg =? "-")%char || (sg =? "+")%char).
  - pose proof (span_digits_length r') as L.
    destruct (span_digits r') as [[|d ds] rest];
      cbn [snd String.length] in *; lia.
  - pose proof (span_digits_length (String sg r')) as L.
    destruct (span_digits (String sg r')) as [[|d ds] rest];
      cbn [snd String.length] in *; lia.
Qed.

Lemma match_number_length s v rest :
  match_number s = Some (v, rest) -> String.length rest < String.length s.
Proof.
  unfold match_number.
  set (p := match s with
            | String c r => if (c =? "-")%char then (true, r) else (false, s)
            | EmptyString => (false, s)
            end).
  assert (Hp : String.length (snd p) <= String.length s).
  { subst p; destruct s as [|c r]; simpl; [lia|].
    destruct (c =? "-")%char; simpl; lia. }
  destruct p as [neg s1]; simpl in Hp.
  destruct (match_integer s1) as [[integer s2]|] eqn:Ei; [|discriminate].
  apply match_integer_length in Ei.
  pose proof (match_frac_length s2) as Lf.
  destruct (match_frac s2) as [frac s3]; simpl in Lf.
  pose proof (match_exp_length s3) as Le.
  destruct (match_exp s3) as [exp s4]; simpl in Le.
  destruct frac, exp; intros H; inversion H; subst; lia.
Qed.

Lemma strip_prefix_length w : forall s rest,
  strip_prefix w s = Some rest -> String.length rest + String.length w = String.length s.
Proof.
  induction w as [|a w IH]; intros s rest; simpl.
  - intros H; inversion H; lia.
  - destruct s as [|b s']; [discriminate|].
    destruct (a =? b)%char; [|discriminate].
    intros H; apply IH in H; simpl; lia.
Qed.

Lemma scan_atom_fuel s : scan_atom s <> OutOfFuel.
Proof.
  unfold scan_atom.
  repeat match goal with
         | |- context [match ?x with _ => _ end] => destruct x
         end; discriminate.
Qed.

Lemma scan_atom_length s v rest :
  scan_atom s = Done (v, rest) -> String.length rest < String.length s.
Proof.
  unfold scan_atom.
  repeat match goal with
         | |- context [match strip_prefix ?w ?x with _ => _ end] =>
             let E := fresh "E" in
             destruct (strip_prefix w x) eqn:E;
             [apply strip_prefix_length in E; simpl in E;
              intros H; inversion H; subst; lia|]
         | |- context [match match_number ?x with _ => _ end] =>
             let E := fresh "E" in
             destruct (match_number x) as [[? ?]|] eqn:E;
             [apply match_number_length in E;
              intros H; inversion H; subst; lia|]
         end.
  discriminate.
Qed.

Lemma scanners_progress (n : nat) :
  (forall s, 2 * String.length s < n -> progresses s (scan_once n s)) /\
  (forall s values, 2 * String.length s + 1 < n ->
                    progresses s (JSONArray n s values)) /\
  (forall s pairs, 2 * String.length s + 1 < n ->
                   progresses s (JSONObject n s pairs)).
Proof.
  induction n as [|n (IHs & IHa & IHo)].
  { repeat split; intros; lia. }
  split; [|split].
  - intros s Hn. destruct s as [|c r]; simpl.
    { split; [discriminate|intros ? ? H; discriminate]. }
    simpl in Hn.
    destruct (c =? double_quote)%char.
    { destruct (scanstring r) as [[str rest]|] eqn:E.
      - apply scanstring_length in E.
        split; [discriminate|]. intros v rest' H; inversion H; subst; simpl; lia.
      - split; [discriminate|intros ? ? H; discriminate]. }
    destruct (c =? "{")%char.
    { pose proof (skip_ws_length r) as L.
      destruct (skip_ws r) as [|c1 r1]; simpl in L.
      { split; [discriminate|intros ? ? H; discriminate]. }
      destruct (c1 =? "}")%char.
      { split; [discriminate|]. intros v rest' H; inversion H; subst; simpl; lia. }
      destruct (c1 =? double_quote)%char.
      - destruct (IHo r1 []) as [F P]; [lia|].
        split; [exact F|]. intros v rest' H. apply P in H. simpl; lia.
      - split; [discriminate|intros ? ? H; discriminate]. }
    destruct (c =? "[")%char.
    { pose proof (skip_ws_length r) as L.
      destruct (skip_ws r) as [|c1 r1] eqn:E; simpl in L.
      { split; [discriminate|intros ? ? H; discriminate]. }
      destruct (c1 =? "]")%char.
      { split; [discriminate|]. intros v rest' H; inversion H; subst; simpl; lia. }
      destruct (IHa (String c1 r1) []) as [F P]; [simpl; lia|].
      split; [exact F|]. intros v rest' H. apply P in H. simpl in *; lia. }
    split; [apply scan_atom_fuel|].
    intros v rest H. apply scan_atom_length in H. exact H.
  - intros s values Hn. simpl.
    destruct (IHs s) as [F P]; [lia|].
    destruct (scan_once n s) as [[value rest]| |] eqn:E.
    + specialize (P _ _ eq_refl).
      pose proof (skip_ws_length rest) as L.
      destruct (skip_ws rest) as [|c r]; simpl in L.
      { split; [discriminate|intros ? ? H; discriminate]. }
      destruct (c =? "]")%char.
      { split; [discriminate|]. intros v rest' H; inversion H; subst; lia. }
      destruct (c =? ",")%char.
      * pose proof (skip_ws_length r) as L'.
        destruct (IHa (skip_ws r) (value :: values)) as [F' P']; [lia|].
        split; [exact F'|]. intros v rest' H. apply P' in H. lia.
      * split; [discriminate|intros ? ? H; discriminate].
    + split; [discriminate|intros ? ? H; discriminate].
    + contradiction.
  - intros s pairs Hn. simpl.
    destruct (scanstring s) as [[key rest]|] eqn:Ek.
    2:{ split; [discriminate|intros ? ? H; discriminate]. }
    apply scanstring_length in Ek.
    pose proof (skip_ws_length rest) as L.
    destruct (skip_ws rest) as [|c r]; simpl in L.
    { split; [discriminate|intros ? ? H; discriminate]. }
    destruct (c =? ":")%char.
    2:{ split; [discriminate|intros ? ? H; discriminate]. }
    pose proof (skip_ws_length r) as L1.
    destruct (IHs (skip_ws r)) as [F P]; [lia|].
    destruct (scan_once n (skip_ws r)) as [[value rest1]| |] eqn:E.
    + specialize (P _ _ eq_refl).
      pose proof (skip_ws_length rest1) as L2.
      destruct (skip_ws rest1) as [|c1 r1]; simpl in L2.
      { split; [discriminate|intros ? ? H; discriminate]. }
      destruct (c1 =? "}")%char.
      { split; [discriminate|]. intros v rest' H; inversion H; subst; lia. }
      destruct (c1 =? ",")%char.
      2:{ split; [discriminate|intros ? ? H; discriminate]. }
      pose proof (skip_ws_length r1) as L3.
      destruct (skip_ws r1) as [|c2 r2]; simpl in L3.
      { split; [discriminate|intros ? ? H; discriminate]. }
      destruct (c2 =? double_quote)%char.
      * destruct (IHo r2 ((key, value) :: pairs)) as [F' P']; [lia|].
        split; [exact F'|]. intros v rest' H. apply P' in H. lia.
      * split; [discriminate|intros ? ? H; discriminate].
    + split; [discriminate|intros ? ? H; discriminate].
    + contradiction.
Qed.

Lemma fuel_suffices (s : string) : json_loads s <> OutOfFuel.
Proof.
  unfold json_loads.
  destruct (strip_prefix _ s); [discriminate|].
  unfold decode.
  destruct (scanners_progress (fuel_for s)) as [Hs _].
  destruct (Hs (skip_ws s)) as [F _].
  { pose proof (skip_ws_length s). unfold fuel_for. lia. }
  destruct (scan_once (fuel_for s) (skip_ws s)) as [[obj rest]| |];
    [destruct (skip_ws rest); discriminate | discriminate | contradiction].
Qed.

Local Close Scope nat_scope.

(** ** The row loop against the contribution of each row *)

Lemma app_nil_state (st : state) :
  mkState (production_companies_list st ++ []) (genres_list st ++ [])
    (movie_genres_list st ++ []) (movie_production_companies_list st ++ [])
    (log st ++ []) = st.
Proof. destruct st; simpl; rewrite !app_nil_r; reflexivity. Qed.

Lemma genre_body_spec movie_id v st :
  genre_body movie_id v st =
  match entity_of v with
  | Ok e => (add_genres movie_id [e] st, Ok tt)
  | Raise x => (st, Raise x)
  end.
Proof.
  unfold genre_body, entity_of, bind, lift, rbind.
  destruct (getitem v "id"); [|reflexivity].
  destruct (getitem v "name"); reflexivity.
Qed.

Lemma company_body_spec movie_id v st :
  company_body movie_id v st =
  match entity_of v with
  | Ok e => (add_companies movie_id [e] st, Ok tt)
  | Raise x => (st, Raise x)
  end.
Proof.
  unfold company_body, entity_of, bind, lift, rbind.
  destruct (getitem v "id"); [|reflexivity].
  destruct (getitem v "name"); reflexivity.
Qed.

Lemma for_each_genre_body movie_id items : forall st,
  for_each items (genre_body movie_id) st =
  (add_genres movie_id (fst (entities_until_failure items)) st,
   finish (snd (entities_until_failure items))).
Proof.
  induction items as [|v rest IH]; intros st; simpl.
  - unfold ret, add_genres; simpl. rewrite !app_nil_r. destruct st; reflexivity.
  - unfold bind at 1. rewrite genre_body_spec.
    destruct (entity_of v) as [e|x]; simpl.
    + rewrite IH. destruct (entities_until_failure rest) as [es r]; simpl.
      unfold add_genres; simpl. rewrite <- !app_assoc. reflexivity.
    + unfold add_genres; simpl. rewrite !app_nil_r. destruct st; reflexivity.
Qed.

Lemma for_each_company_body movie_id items : forall st,
  for_each items (company_body movie_id) st =
  (add_companies movie_id (fst (entities_until_failure items)) st,
   finish (snd (entities_until_failure items))).
Proof.
  induction items as [|v rest IH]; intros st; simpl.
  - unfold ret, add_companies; simpl. rewrite !app_nil_r. destruct st; reflexivity.
  - unfold bind at 1. rewrite company_body_spec.
    destruct (entity_of v) as [e|x]; simpl.
    + rewrite IH. destruct (entities_until_failure rest) as [es r]; simpl.
      unfold add_companies; simpl. rewrite <- !app_assoc. reflexivity.
    + unfold add_companies; simpl. rewrite !app_nil_r. destruct st; reflexivity.
Qed.

Lemma process_genres_spec row movie_id st :
  process_genres row movie_id st =
  match field_items row "genres" with
  | Ok items => for_each items (genre_body movie_id) st
  | Raise e => (st, Raise e)
  end.
Proof.
  unfold process_genres, field_items, bind, lift, rbind.
  destruct (Series_getitem row "genres") as [f|]; [|reflexivity].
  destruct (parse_json_string f) as [v|]; [|reflexivity].
  destruct (iter v); reflexivity.
Qed.

Lemma process_companies_spec row movie_id st :
  process_companies row movie_id st =
  match field_items row "production_companies" with
  | Ok items => for_each items (company_body movie_id) st
  | Raise e => (st, Raise e)
  end.
Proof.
  unfold process_companies, field_items, bind, lift, rbind.
  destruct (Series_getitem row "production_companies") as [f|]; [|reflexivity].
  destruct (parse_json_string f) as [v|]; [|reflexivity].
  destruct (iter v); reflexivity.
Qed.

Lemma bind_lift {A B} (r : result A) (k : A -> M B) st :
  bind (lift r) k st =
  match r with
  | Ok a => k a st
  | Raise e => (st, Raise e)
  end.
Proof. destruct r; reflexivity. Qed.

Lemma bind_run {A B} (m : M A) (k : A -> M B) st :
  bind m k st =
  match m st with
  | (st', Ok a) => k a st'
  | (st', Raise e) => (st', Raise e)
  end.
Proof. reflexivity. Qed.

Lemma handler_spec (movie_id : cell) (e : exn) (st : state) :
  bind (lift (Ok movie_id)) (fun i => print (RowError i e)) st =
  (mkState (production_companies_list st) (genres_list st) (movie_genres_list st)
     (movie_production_companies_list st) (log st ++ [RowError movie_id e]), Ok tt).
Proof. reflexivity. Qed.

(** A row that has an id is handled inside the loop whatever else it
    holds: its contribution is recorded, with a line in the log when an
    exception was raised, and the loop goes on. *)
Lemma process_row_spec row movie_id st :
  Series_getitem row "id" = Ok movie_id ->
  process_row row st = (record movie_id (contribution_of row) st, Ok tt).
Proof.
  intros Hid.
  unfold process_row, row_body, contribution_of.
  rewrite bind_lift, Hid, bind_run, process_genres_spec.
  destruct (field_items row "genres") as [items|e].
  2:{ rewrite handler_spec. unfold record; simpl.
      rewrite !app_nil_r. reflexivity. }
  rewrite for_each_genre_body.
  destruct (entities_until_failure items) as [gs [e|]]; simpl.
  { rewrite handler_spec. unfold record; simpl.
    rewrite !app_nil_r. reflexivity. }
  rewrite process_companies_spec.
  destruct (field_items row "production_companies") as [items'|e].
  2:{ rewrite handler_spec. unfold record; simpl.
      rewrite !app_nil_r. reflexivity. }
  rewrite for_each_company_body.
  destruct (entities_until_failure items') as [cs [e|]]; simpl.
  - rewrite handler_spec. unfold record; simpl. reflexivity.
  - unfold record; simpl. rewrite !app_nil_r. reflexivity.
Qed.

(** A row without an id leaves the loop: the lists are untouched and the
    [KeyError] raised in the handler escapes. *)
Lemma process_row_without_id row st :
  Series_getitem row "id" = Raise (KeyError "id") ->
  process_row row st = (st, Raise (KeyError "id")).
Proof.
  intros Hid. unfold process_row, row_body.
  rewrite bind_lift, Hid. reflexivity.
Qed.

Lemma Series_getitem_raises row key e :
  Series_getitem row key = Raise e -> e = KeyError key.
Proof.
  induction row as [|[k v] r IH]; simpl.
  - intros H; inversion H; reflexivity.
  - destruct (String.eqb k key); [discriminate|exact IH].
Qed.

Lemma row_loop_cons row rest st :
  row_loop (row :: rest) st =
  match process_row row st with
  | (st', Ok _) => row_loop rest st'
  | (st', Raise e) => (st', Raise e)
  end.
Proof. reflexivity. Qed.

(** When every row has an id the loop reaches the end of the table. *)
Lemma row_loop_total movies_df : forall st,
  Forall (fun row => exists i, Series_getitem row "id" = Ok i) movies_df ->
  snd (row_loop movies_df st) = Ok tt.
Proof.
  induction movies_df as [|row rest IH]; intros st H.
  - reflexivity.
  - inversion H as [|? ? [i Hi] Hrest]; subst.
    rewrite row_loop_cons, (process_row_spec _ _ _ Hi). apply IH, Hrest.
Qed.

(** ** Equality of values *)

Lemma cell_eqb_eq (a b : cell) : cell_eqb a b = true <-> a = b.
Proof.
  destruct a, b; simpl; try (split; [discriminate|congruence]).
  - split; reflexivity.
  - rewrite Z.eqb_eq. split; congruence.
  - rewrite String.eqb_eq. split; congruence.
Qed.

Lemma json_ind' (P : json -> Prop)
  (HNull : P JNull) (HBool : forall b, P (JBool b)) (HInt : forall z, P (JInt z))
  (HFloat : forall l, P (JFloat l)) (HStr : forall s, P (JStr s))
  (HArr : forall items, Forall P items -> P (JArr items))
  (HObj : forall pairs, Forall (fun kv => P (snd kv)) pairs -> P (JObj pairs)) :
  forall v, P v.
Proof.
  fix IH 1. intros [ | b | z | l | s | items | pairs].
  - exact HNull.
  - apply HBool.
  - apply HInt.
  - apply HFloat.
  - apply HStr.
  - apply HArr. revert items. fix IHl 1. intros [|x r].
    + constructor.
    + constructor; [apply IH | apply IHl].
  - apply HObj. revert pairs. fix IHl 1. intros [|[k x] r].
    + constructor.
    + constructor; [apply IH | apply IHl].
Qed.

Lemma json_eqb_eq : forall a b, json_eqb a b = true <-> a = b.
Proof.
  induction a as [ | x | x | x | x | items IH | pairs IH] using json_ind';
    intros [ | y | y | y | y | items' | pairs']; simpl;
    try (split; [discriminate|congruence]).
  - split; reflexivity.
  - rewrite Bool.eqb_true_iff. split; congruence.
  - rewrite Z.eqb_eq. split; congruence.
  - rewrite String.eqb_eq. split; congruence.
  - rewrite String.eqb_eq. split; congruence.
  - revert items'. induction IH as [|a r Ha _ IHr]; intros [|a' r'];
      try (split; [discriminate|congruence]).
    + split; reflexivity.
    + rewrite andb_true_iff, Ha, IHr. split.
      * intros [-> E]. inversion E; reflexivity.
      * intros E; inversion E; subst. split; reflexivity.
  - revert pairs'. induction IH as [|[k a] r Ha _ IHr]; intros [|[k' a'] r'];
      try (split; [discriminate|congruence]).
    + split; reflexivity.
    + simpl in Ha.
      rewrite !andb_true_iff, String.eqb_eq, Ha, IHr. split.
      * intros [[-> ->] E]. inversion E; reflexivity.
      * intros E; inversion E; subst. repeat split; reflexivity.
Qed.

Lemma pair_eqb_eq {A B} (eqa : A -> A -> bool) (eqb : B -> B -> bool) :
  (forall x y, eqa x y = true <-> x = y) ->
  (forall x y, eqb x y = true <-> x = y) ->
  forall p q, pair_eqb eqa eqb p q = true <-> p = q.
Proof.
  intros Ha Hb [a b] [a' b']; unfold pair_eqb; simpl.
  rewrite andb_true_iff, Ha, Hb. split.
  - intros [-> ->]; reflexivity.
  - intros E; inversion E; split; reflexivity.
Qed.

(** ** [drop_duplicates] keeps the first row of each key *)

Section DropDuplicatesFacts.
Variables A K : Type.
Variable eqb : K -> K -> bool.
Variable key : A -> K.
Hypothesis eqb_eq : forall x y, eqb x y = true <-> x = y.

Lemma existsb_eqb k seen : existsb (eqb k) seen = true <-> In k seen.
Proof.
  rewrite existsb_exists. split.
  - intros [x [Hx E]]. apply eqb_eq in E; subst; exact Hx.
  - intros H. exists k. split; [exact H|]. apply eqb_eq; reflexivity.
Qed.

Lemma eqb_refl k : eqb k k = true.
Proof. apply eqb_eq; reflexivity. Qed.

Lemma drop_seen_In x : forall l seen,
  In x (drop_seen eqb key seen l) -> In x l /\ ~ In (key x) seen.
Proof.
  induction l as [|y r IH]; intros seen; simpl; [tauto|].
  destruct (existsb (eqb (key y)) seen) eqn:E.
  - intros H. apply IH in H. tauto.
  - intros [->|H].
    + split; [left; reflexivity|].
      intros Hin. apply existsb_eqb in Hin. congruence.
    + apply IH in H. simpl in H. tauto.
Qed.


Lemma filter_drop_seen k : forall l seen,
  filter (fun x => eqb k (key x)) (drop_seen eqb key seen l) =
  if existsb (eqb k) seen then []
  else match find (fun x => eqb k (key x)) l with
       | Some x => [x]
       | None => []
       end.
Proof.
  induction l as [|y r IH]; intros seen; simpl.
  - destruct (existsb (eqb k) seen); reflexivity.
  - destruct (existsb (eqb (key y)) seen) eqn:Ey.
    + rewrite IH. destruct (existsb (eqb k) seen) eqn:Ek; [reflexivity|].
      destruct (eqb k (key y)) eqn:E; [|reflexivity].
      apply eqb_eq in E; subst. congruence.
    + simpl. rewrite IH. simpl.
      destruct (eqb k (key y)) eqn:E; simpl.
      * apply eqb_eq in E; subst. rewrite Ey. reflexivity.
      * reflexivity.
Qed.

Lemma index_where_In x : forall l,
  In x l -> exists a, index_where (fun y => eqb (key x) (key y)) l = Some a.
Proof.
  induction l as [|y r IH]; simpl; [tauto|].
  intros [->|H].
  - rewrite eqb_refl. eauto.
  - destruct (eqb (key x) (key y)); [eauto|].
    destruct (IH H) as [a ->]. simpl; eauto.
Qed.

Lemma drop_seen_order : forall l seen i j p q,
  (i < j)%nat ->
  nth_error (drop_seen eqb key seen l) i = Some p ->
  nth_error (drop_seen eqb key seen l) j = Some q ->
  exists a b,
    index_where (fun y => eqb (key p) (key y)) l = Some a /\
    index_where (fun y => eqb (key q) (key y)) l = Some b /\ (a < b)%nat.
Proof.
  assert (other : forall x y seen r,
             In x (drop_seen eqb key (key y :: seen) r) -> eqb (key x) (key y) = false).
  { intros x y seen r H. apply drop_seen_In in H as [_ H].
    destruct (eqb (key x) (key y)) eqn:E; [|reflexivity].
    apply eqb_eq in E. exfalso; apply H; left; symmetry; exact E. }
  induction l as [|y r IH]; intros seen i j p q Hij Hp Hq; simpl in *.
  { destruct i; discriminate. }
  destruct (existsb (eqb (key y)) seen) eqn:Ey.
  - assert (fresh : forall x, In x (drop_seen eqb key seen r) ->
                              eqb (key x) (key y) = false).
    { intros x H. apply drop_seen_In in H as [_ H].
      destruct (eqb (key x) (key y)) eqn:E; [|reflexivity].
      apply eqb_eq in E. apply existsb_eqb in Ey. congruence. }
    destruct (IH _ _ _ _ _ Hij Hp Hq) as (a & b & Ha & Hb & Hab).
    rewrite (fresh p (nth_error_In _ _ Hp)), (fresh q (nth_error_In _ _ Hq)).
    rewrite Ha, Hb. exists (S a), (S b). simpl. repeat split; lia.
  - destruct j as [|j]; [lia|]. simpl in Hq.
    pose proof (nth_error_In _ _ Hq) as Hq'.
    rewrite (other _ _ _ _ Hq').
    destruct i as [|i]; simpl in Hp.
    + inversion Hp; subst. rewrite eqb_refl.
      apply drop_seen_In in Hq' as [Hq' _].
      destruct (index_where_In _ _ Hq') as [b ->].
      exists O, (S b). simpl. repeat split; lia.
    + pose proof (nth_error_In _ _ Hp) as Hp'.
      rewrite (other _ _ _ _ Hp').
      destruct (IH _ _ _ _ _ (proj2 (Nat.succ_lt_mono i j) Hij) Hp Hq)
        as (a & b & Ha & Hb & Hab).
      rewrite Ha, Hb. exists (S a), (S b). simpl. repeat split; lia.
Qed.

Lemma find_In k : forall l x,
  In x l -> key x = k -> find (fun y => eqb k (key y)) l <> None.
Proof.
  intros l x Hx Hk Hnone.
  apply (find_none _ _ Hnone) in Hx. subst k. rewrite eqb_refl in Hx. discriminate.
Qed.
End DropDuplicatesFacts.

Lemma drop_duplicates_first_seen_once {A} (eqb : A -> A -> bool) :
  (forall x y, eqb x y = true <-> x = y) ->
  forall records, first_seen_once eqb records (drop_duplicates eqb records).
Proof.
  intros Heq records. unfold drop_duplicates, drop_duplicates_subset.
  split; [|split].
  - intros p Hp.
    change (List.length (filter (fun x => eqb p x)
                           (drop_seen eqb (fun x => x) [] records)) = 1%nat).
    rewrite (@filter_drop_seen A A eqb (fun x => x) Heq p records []). simpl.
    pose proof (@find_In A A eqb (fun x => x) Heq p records p Hp eq_refl) as Hf.
    destruct (find (fun x => eqb p x) records); [reflexivity|contradiction].
  - intros p Hp. apply (@drop_seen_In A A eqb (fun x => x) Heq) in Hp. tauto.
  - intros i j p q Hij Hp Hq.
    exact (@drop_seen_order A A eqb (fun x => x) Heq records [] i j p q Hij Hp Hq).
Qed.

(** ** The lists of ids and of pairs grow together *)

Lemma map_snd_pairs_of movie_id es : map snd (pairs_of movie_id es) = map fst es.
Proof. unfold pairs_of. rewrite map_map. reflexivity. Qed.

Lemma record_in_step movie_id c st : in_step st -> in_step (record movie_id c st).
Proof.
  intros [Hg Hc]. unfold in_step, record; simpl.
  rewrite !map_app, !map_snd_pairs_of, Hg, Hc. split; reflexivity.
Qed.

Lemma process_row_state row st :
  (exists movie_id, Series_getitem row "id" = Ok movie_id /\
                    process_row row st = (record movie_id (contribution_of row) st, Ok tt)) \/
  process_row row st = (st, Raise (KeyError "id")).
Proof.
  destruct (Series_getitem row "id") as [i|e] eqn:E.
  - left. exists i. split; [reflexivity|]. apply process_row_spec, E.
  - right. pose proof (Series_getitem_raises _ _ _ E); subst e.
    apply process_row_without_id, E.
Qed.

Lemma row_loop_in_step movies_df : forall st,
  in_step st -> in_step (fst (row_loop movies_df st)).
Proof.
  induction movies_df as [|row rest IH]; intros st H; [exact H|].
  rewrite row_loop_cons.
  destruct (process_row_state row st) as [(i & _ & ->)| ->].
  - apply IH, record_in_step, H.
  - exact H.
Qed.

Lemma entities_until_failure_stops before gs bad e after :
  map entity_of before = map Ok gs ->
  entity_of bad = Raise e ->
  entities_until_failure (before ++ bad :: after) = (gs, Some e).
Proof.
  revert gs; induction before as [|v r IH]; intros [|g gs] Hm Hb;
    simpl in *; try discriminate.
  - rewrite Hb. reflexivity.
  - inversion Hm as [[Hv Hr]]. rewrite Hv, (IH _ Hr Hb). reflexivity.
Qed.

Lemma entities_until_failure_all items gs :
  map entity_of items = map Ok gs ->
  entities_until_failure items = (gs, None).
Proof.
  revert gs; induction items as [|v r IH]; intros [|g gs] Hm;
    simpl in *; try discriminate.
  - reflexivity.
  - inversion Hm as [[Hv Hr]]. rewrite Hv, (IH _ Hr). reflexivity.
Qed.

Lemma contribution_genres_stop row before bad after gs e :
  field_items row "genres" = Ok (before ++ bad :: after) ->
  map entity_of before = map Ok gs ->
  entity_of bad = Raise e ->
  contribution_of row = mkContribution gs [] (Some e).
Proof.
  intros Hf Hm Hb. unfold contribution_of.
  rewrite Hf, (entities_until_failure_stops _ _ _ _ after Hm Hb). reflexivity.
Qed.

Lemma contribution_companies_stop row items gs before bad after cs e :
  field_items row "genres" = Ok items ->
  map entity_of items = map Ok gs ->
  field_items row "production_companies" = Ok (before ++ bad :: after) ->
  map entity_of before = map Ok cs ->
  entity_of bad = Raise e ->
  contribution_of row = mkContribution gs cs (Some e).
Proof.
  intros Hf Hm Hf' Hm' Hb. unfold contribution_of.
  rewrite Hf, (entities_until_failure_all _ _ Hm), Hf',
    (entities_until_failure_stops _ _ _ _ after Hm' Hb).
  reflexivity.
Qed.

(** ** The parser *)

Lemma parse_json_string_text (s : string) :
  parse_json_string (CStr s) =
  Ok match json_loads (replace "'" double_quote s) with
     | Done v => v
     | _ => JArr []
     end.
Proof.
  unfold parse_json_string.
  pose proof (fuel_suffices (replace "'" double_quote s)) as F.
  destruct (json_loads (replace "'" double_quote s)); [reflexivity|reflexivity|contradiction].
Qed.



(** C10: a value that parses is returned as it is, whatever its shape.  A
    bare number, a single object and a list of scalars are not lists of
    objects and come back unchanged, neither emptied nor reshaped; the
    loop of the caller then raises on them and the row handler logs it. *)
Theorem C10_no_shape_validation :
  (forall s v, json_loads (replace "'" double_quote s) = Done v ->
               parse_json_string (CStr s) = Ok v) /\
  (parse_json_string (CStr "5") = Ok (JInt 5) /\
   is_list_of_objects (JInt 5) = false) /\
  (parse_json_string (CStr "{'id': 16, 'name': 'Animation'}") =
     Ok (JObj [("id", JInt 16); ("name", JStr "Animation")]) /\
   is_list_of_objects (JObj [("id", JInt 16); ("name", JStr "Animation")]) = false) /\
  (parse_json_string (CStr "[16, 35]") = Ok (JArr [JInt 16; JInt 35]) /\
   is_list_of_objects (JArr [JInt 16; JInt 35]) = false) /\
  log (fst (process_row (source_row 862 "1995-10-30" "5" pixar) initial)) =
    [RowError (CInt 862) (TypeError_not_iterable "int")] /\
  log (fst (process_row (source_row 862 "1995-10-30" "[16, 35]" pixar) initial)) =
    [RowError (CInt 862) (TypeError_not_subscriptable "int")] /\
  log (fst (process_row
              (source_row 862 "1995-10-30" "{'id': 16, 'name': 'Animation'}" pixar)
              initial)) =
    [RowError (CInt 862) (TypeError_bad_index "str")].
Proof.
  split; [|repeat split; reflexivity].
  intros s v H. rewrite parse_json_string_text, H. reflexivity.
Qed.

Lemma C10_no_shape_validation_witness :
  json_loads (replace "'" double_quote "5") = Done (JInt 5) /\
  parse_json_string (CStr "5") = Ok (JInt 5).
Proof.
  assert (H : json_loads (replace "'" double_quote "5") = Done (JInt 5)) by reflexivity.
  split; [exact H|].
  exact (proj1 C10_no_shape_validation "5" (JInt 5) H).
Defined.

(** ** One row *)

(** An object without an [id], or with an [id] and without a [name], is
    an item from which no entity can be read. *)
Lemma entity_of_missing_key (d : list (string * json)) :
  (dict_get d "id" = None -> entity_of (JObj d) = Raise (KeyError "id")) /\
  (forall i, dict_get d "id" = Some i -> dict_get d "name" = None ->
             entity_of (JObj d) = Raise (KeyError "name")).
Proof.
  unfold entity_of, getitem, rbind. split.
  - intros ->. reflexivity.
  - intros i -> ->. reflexivity.
Qed.

(** C3, counterexample: the claim has the production companies of a row
    recorded in full although a genre of the same row has no name.  The
    two fields are read inside one [try]: the [KeyError] raised in the
    genres loop ends the row before the companies are looked at. *)
Lemma C3_sibling_field_is_skipped :
  field_items nameless_genre "genres" = Ok [JObj [("id", JInt 16)]] /\
  entity_of (JObj [("id", JInt 16)]) = Raise (KeyError "name") /\
  field_items nameless_genre "production_companies" =
    Ok [JObj [("id", JInt 3); ("name", JStr "Pixar")]] /\
  production_companies_list (fst (process_row nameless_genre initial)) = [] /\
  movie_production_companies_list (fst (process_row nameless_genre initial)) = [].
Proof. repeat split; reflexivity. Qed.

(** C3, as amended: when the genres of a row that has an id hold an
    entity from which the id or the name cannot be read, the row ends
    there: the genres before that entity are recorded with their pairs,
    that entity and the ones after it are not, the production companies of
    the row are not processed and add nothing, and the row is logged.
    When it is the production companies that hold such an entity, the
    genres of the row, which are read first, have been recorded in full,
    and the companies before the entity as well. *)
Theorem C3_entity_without_key_ends_the_row :
  (forall row movie_id before bad after gs e st,
      Series_getitem row "id" = Ok movie_id ->
      field_items row "genres" = Ok (before ++ bad :: after) ->
      map entity_of before = map Ok gs ->
      entity_of bad = Raise e ->
      process_row row st =
      (mkState (production_companies_list st)
         (genres_list st ++ gs)
         (movie_genres_list st ++ pairs_of movie_id gs)
         (movie_production_companies_list st)
         (log st ++ [RowError movie_id e]), Ok tt)) /\
  (forall row movie_id items gs before bad after cs e st,
      Series_getitem row "id" = Ok movie_id ->
      field_items row "genres" = Ok items ->
      map entity_of items = map Ok gs ->
      field_items row "production_companies" = Ok (before ++ bad :: after) ->
      map entity_of before = map Ok cs ->
      entity_of bad = Raise e ->
      process_row row st =
      (mkState (production_companies_list st ++ cs)
         (genres_list st ++ gs)
         (movie_genres_list st ++ pairs_of movie_id gs)
         (movie_production_companies_list st ++ pairs_of movie_id cs)
         (log st ++ [RowError movie_id e]), Ok tt)).
Proof.
  split.
  - intros row movie_id before bad after gs e st Hid Hf Hm Hb.
    rewrite (process_row_spec _ _ _ Hid),
      (contribution_genres_stop _ _ _ _ _ _ Hf Hm Hb).
    unfold record; simpl. rewrite !app_nil_r. reflexivity.
  - intros row movie_id items gs before bad after cs e st Hid Hf Hm Hf' Hm' Hb.
    rewrite (process_row_spec _ _ _ Hid),
      (contribution_companies_stop _ _ _ _ _ _ _ _ Hf Hm Hf' Hm' Hb).
    reflexivity.
Qed.

Lemma C3_entity_without_key_ends_the_row_witness :
  Series_getitem nameless_genre "id" = Ok (CInt 862) /\
  field_items nameless_genre "genres" = Ok ([] ++ JObj [("id", JInt 16)] :: []) /\
  map entity_of [] = map Ok [] /\
  entity_of (JObj [("id", JInt 16)]) = Raise (KeyError "name") /\
  process_row nameless_genre initial =
    (mkState [] [] [] [] [RowError (CInt 862) (KeyError "name")], Ok tt).
Proof.
  refine (conj eq_refl (conj eq_refl (conj eq_refl (conj eq_refl _)))).
  exact (proj1 C3_entity_without_key_ends_the_row nameless_genre (CInt 862)
           [] (JObj [("id", JInt 16)]) [] [] (KeyError "name") initial
           eq_refl eq_refl eq_refl eq_refl).
Defined.

(** C5, counterexample: the claim has nothing of the failing field kept.
    The genre that precedes the one without a name was appended, with its
    pair, before the exception was raised, and stays. *)
Lemma C5_prefix_is_retained :
  field_items second_genre_nameless "genres" =
    Ok [JObj [("id", JInt 16); ("name", JStr "Animation")]; JObj [("id", JInt 35)]] /\
  entity_of (JObj [("id", JInt 35)]) = Raise (KeyError "name") /\
  log (fst (process_row second_genre_nameless initial)) =
    [RowError (CInt 862) (KeyError "name")] /\
  genres_list (fst (process_row second_genre_nameless initial)) =
    [(JInt 16, JStr "Animation")] /\
  movie_genres_list (fst (process_row second_genre_nameless initial)) =
    [(CInt 862, JInt 16)].
Proof. repeat split; reflexivity. Qed.

(** C5, as amended: for every row that has an id, whatever is raised
    while the row is normalized, the loop goes on with the later rows
    from the state that holds the contribution of the row and the line
    logged for it.  Of the failing field, the entities that precede the
    offending one are kept with their pairs; the offending entity and the
    ones after it add nothing, nor does a field read later in the row. *)
Theorem C5_row_error_keeps_the_prefix :
  forall row rest movie_id st,
    Series_getitem row "id" = Ok movie_id ->
    row_loop (row :: rest) st =
      row_loop rest (record movie_id (contribution_of row) st) /\
    (forall before bad after gs e,
        field_items row "genres" = Ok (before ++ bad :: after) ->
        map entity_of before = map Ok gs ->
        entity_of bad = Raise e ->
        contribution_of row = mkContribution gs [] (Some e)) /\
    (forall items gs before bad after cs e,
        field_items row "genres" = Ok items ->
        map entity_of items = map Ok gs ->
        field_items row "production_companies" = Ok (before ++ bad :: after) ->
        map entity_of before = map Ok cs ->
        entity_of bad = Raise e ->
        contribution_of row = mkContribution gs cs (Some e)) /\
    (forall column e,
        (column = "genres" \/
         column = "production_companies" /\
         exists items gs, field_items row "genres" = Ok items /\
                          map entity_of items = map Ok gs) ->
        field_items row column = Raise e ->
        raised (contribution_of row) = Some e /\
        (column = "genres" -> new_genres (contribution_of row) = []) /\
        new_companies (contribution_of row) = []).
Proof.
  intros row rest movie_id st Hid. split; [|split; [|split]].
  - rewrite row_loop_cons, (process_row_spec _ _ _ Hid). reflexivity.
  - intros. eapply contribution_genres_stop; eassumption.
  - intros. eapply contribution_companies_stop; eassumption.
  - intros column e [->|[-> (items & gs & Hf & Hm)]] He; unfold contribution_of.
    + rewrite He. simpl. repeat split.
    + rewrite Hf, (entities_until_failure_all _ _ Hm), He. simpl.
      repeat split. discriminate.
Qed.

Lemma C5_row_error_keeps_the_prefix_witness :
  Series_getitem second_genre_nameless "id" = Ok (CInt 862) /\
  row_loop [second_genre_nameless; toy_story] initial =
    row_loop [toy_story]
      (mkState [] [(JInt 16, JStr "Animation")] [(CInt 862, JInt 16)] []
         [RowError (CInt 862) (KeyError "name")]).
Proof.
  split; [reflexivity|].
  exact (proj1 (C5_row_error_keeps_the_prefix second_genre_nameless [toy_story]
                  (CInt 862) initial eq_refl)).
Defined.

(** C4: the run on a table that has no [id] column.  Reading the id
    raises inside the [try] of the first row; the handler reads the id
    again to build its message, that [KeyError] is raised outside any row
    handler, the loop is left before the second row and the run ends on
    the unrecoverable error, with no line logged for the row. *)
Theorem C4_missing_id_ends_the_run :
  same_columns no_id_column = true /\
  row_loop no_id_column initial = (initial, Raise (KeyError "id")) /\
  main no_id_column = ([Unrecoverable (KeyError "id")], Raise (KeyError "id")).
Proof. repeat split; reflexivity. Qed.

(** C9: after any number of source rows, those that raised included and
    whether or not the loop was left early, every entity id of a pair in
    [movie_genres_list] is the id of a record in [genres_list], and every
    entity id of a pair in [movie_production_companies_list] is the id of
    a record in [production_companies_list]: an entity and its pair are
    appended one after the other, and nothing can raise in between. *)
Theorem C9_pairs_refer_to_recorded_entities :
  forall (movies_df : DataFrame) (n : nat),
    (forall p, In p (movie_genres_list (fst (row_loop (firstn n movies_df) initial))) ->
               In (snd p) (map fst (genres_list (fst (row_loop (firstn n movies_df) initial))))) /\
    (forall p, In p (movie_production_companies_list
                       (fst (row_loop (firstn n movies_df) initial))) ->
               In (snd p) (map fst (production_companies_list
                                      (fst (row_loop (firstn n movies_df) initial))))).
Proof.
  intros movies_df n.
  destruct (row_loop_in_step (firstn n movies_df) initial) as [Hg Hc].
  { split; reflexivity. }
  split; intros p Hp; [rewrite <- Hg | rewrite <- Hc]; apply in_map, Hp.
Qed.

Lemma C9_pairs_refer_to_recorded_entities_witness :
  In (CInt 862, JInt 16)
     (movie_genres_list
        (fst (row_loop (firstn 2 [second_genre_nameless; toy_story; nameless_genre])
                initial))) /\
  In (JInt 16)
     (map fst (genres_list
                 (fst (row_loop (firstn 2 [second_genre_nameless; toy_story; nameless_genre])
                         initial)))).
Proof.
  assert (H : In (CInt 862, JInt 16)
                (movie_genres_list
                   (fst (row_loop
                           (firstn 2 [second_genre_nameless; toy_story; nameless_genre])
                           initial)))) by (left; reflexivity).
  split; [exact H|].
  exact (proj1 (C9_pairs_refer_to_recorded_entities
                  [second_genre_nameless; toy_story; nameless_genre] 2)
           (CInt 862, JInt 16) H).
Defined.

(** ** The tables *)

Lemma main_ok movies_df t :
  snd (main movies_df) = Ok t ->
  build_tables movies_df (fst (row_loop movies_df initial)) = Ok t.
Proof.
  unfold main.
  destruct (row_loop movies_df initial) as [st [u|e]]; simpl; [|discriminate].
  destruct (build_tables movies_df st); simpl; [exact (fun H => H)|discriminate].
Qed.

Lemma bridge_table_ok records table :
  bridge_table records = Ok table ->
  table = drop_duplicates (pair_eqb cell_eqb json_eqb) records.
Proof.
  unfold bridge_table. destruct (hash_column (map snd records)); [|discriminate].
  intros H; inversion H; reflexivity.
Qed.

Lemma build_tables_ok movies_df st t :
  build_tables movies_df st = Ok t ->
  entity_table "company_id" (production_companies_list st) = Ok (production_companies t) /\
  entity_table "genre_id" (genres_list st) = Ok (genres t) /\
  bridge_table (movie_genres_list st) = Ok (movie_genres t) /\
  bridge_table (movie_production_companies_list st) = Ok (movie_production_companies t) /\
  movies_table movies_df = Ok (movies t).
Proof.
  unfold build_tables, rbind.
  destruct (entity_table "company_id" _); [|discriminate].
  destruct (entity_table "genre_id" _); [|discriminate].
  destruct (bridge_table (movie_genres_list st)); [|discriminate].
  destruct (bridge_table (movie_production_companies_list st)); [|discriminate].
  destruct (movies_table movies_df); [|discriminate].
  intros H; inversion H; simpl. repeat split.
Qed.

Lemma select_columns_id row m :
  select_columns row = Ok m -> Series_getitem row "id" = Ok (movie_id m).
Proof.
  unfold select_columns, rbind.
  repeat match goal with
         | |- context [match Series_getitem row ?k with _ => _ end] =>
             destruct (Series_getitem row k); [|discriminate]
         end.
  intros H; inversion H; reflexivity.
Qed.




(** C2: the run on two rows that give the genre id 16 under two names.
    [drop_duplicates()] compares whole rows, so the two records differ and
    both are written: the genres table has the id 16 twice, although the
    fact table is cleaned by [movie_id] alone. *)
Theorem C2_two_names_two_rows :
  snd (main two_names) = Ok two_names_tables /\
  genres two_names_tables = [(JInt 16, JStr "Animation"); (JInt 16, JStr "Anime")] /\
  ~ NoDup (map fst (genres two_names_tables)).
Proof.
  split; [reflexivity|]. split; [reflexivity|].
  simpl. intros H. inversion H as [|? ? Hn _]. apply Hn. left; reflexivity.
Qed.







(** * Further properties of the code *)

(** ** The row loop (lines 104-124) *)

Lemma has_column_ok row column :
  has_column row column = true -> exists v, Series_getitem row column = Ok v.
Proof.
  unfold has_column. destruct (Series_getitem row column) as [v|]; [eauto|discriminate].
Qed.





Lemma row_loop_contributions :
  forall movies_df st,
    Forall (fun row => has_column row "id" = true) movies_df ->
    snd (row_loop movies_df st) = Ok tt /\
    genres_list (fst (row_loop movies_df st)) =
      genres_list st ++ flat_map (fun row => new_genres (contribution_of row)) movies_df /\
    production_companies_list (fst (row_loop movies_df st)) =
      production_companies_list st ++
      flat_map (fun row => new_companies (contribution_of row)) movies_df /\
    movie_genres_list (fst (row_loop movies_df st)) =
      movie_genres_list st ++ flat_map row_genre_pairs movies_df /\
    movie_production_companies_list (fst (row_loop movies_df st)) =
      movie_production_companies_list st ++ flat_map row_company_pairs movies_df /\
    log (fst (row_loop movies_df st)) = log st ++ flat_map row_lines movies_df.
Proof.
  induction movies_df as [|row rest IH]; intros st H.
  - simpl. rewrite !app_nil_r. repeat split.
  - inversion H as [|? ? Hrow Hrest]; subst.
    destruct (has_column_ok _ _ Hrow) as [i Hi].
    rewrite row_loop_cons, (process_row_spec _ _ _ Hi).
    destruct (IH (record i (contribution_of row) st) Hrest)
      as (Hok & Hg & Hc & Hmg & Hmc & Hl).
    rewrite Hok, Hg, Hc, Hmg, Hmc, Hl.
    unfold row_genre_pairs, row_company_pairs, row_lines. simpl. rewrite Hi.
    rewrite <- !app_assoc.
    destruct (raised (contribution_of row)); repeat split.
Qed.

(** X6: when every row has an id the loop reaches the end of the table,
    and what it leaves is the rows' contributions one after the other in
    source order: the entities read from each row, their pairs under the
    id of the row, and one line in the log for each row in which something
    was raised, none for the others. *)
Theorem row_loop_records_every_row :
  forall movies_df st,
    Forall (fun row => has_column row "id" = true) movies_df ->
    snd (row_loop movies_df st) = Ok tt /\
    genres_list (fst (row_loop movies_df st)) =
      genres_list st ++ flat_map (fun row => new_genres (contribution_of row)) movies_df /\
    production_companies_list (fst (row_loop movies_df st)) =
      production_companies_list st ++
      flat_map (fun row => new_companies (contribution_of row)) movies_df /\
    movie_genres_list (fst (row_loop movies_df st)) =
      movie_genres_list st ++ flat_map row_genre_pairs movies_df /\
    movie_production_companies_list (fst (row_loop movies_df st)) =
      movie_production_companies_list st ++ flat_map row_company_pairs movies_df /\
    log (fst (row_loop movies_df st)) = log st ++ flat_map row_lines movies_df.
Proof.
  induction movies_df as [|row rest IH]; intros st H.
  - simpl. rewrite !app_nil_r. repeat split.
  - inversion H as [|? ? Hrow Hrest]; subst.
    destruct (has_column_ok _ _ Hrow) as [i Hi].
    rewrite row_loop_cons, (process_row_spec _ _ _ Hi).
    destruct (IH (record i (contribution_of row) st) Hrest)
      as (Hok & Hg & Hc & Hmg & Hmc & Hl).
    rewrite Hok, Hg, Hc, Hmg, Hmc, Hl.
    unfold row_genre_pairs, row_company_pairs, row_lines. simpl. rewrite Hi.
    rewrite <- !app_assoc.
    destruct (raised (contribution_of row)); repeat split.
Qed.

Lemma row_loop_records_every_row_witness :
  Forall (fun row => has_column row "id" = true) [second_genre_nameless; toy_story] /\
  log (fst (row_loop [second_genre_nameless; toy_story] initial)) =
    [RowError (CInt 862) (KeyError "name")] /\
  genres_list (fst (row_loop [second_genre_nameless; toy_story] initial)) =
    [(JInt 16, JStr "Animation"); (JInt 16, JStr "Animation")].
Proof.
  assert (H : Forall (fun row => has_column row "id" = true)
                [second_genre_nameless; toy_story])
    by (repeat constructor).
  split; [exact H|].
  destruct (row_loop_records_every_row [second_genre_nameless; toy_story] initial H)
    as (_ & Hg & _ & _ & _ & Hl).
  split; [exact Hl|exact Hg].
Defined.



Lemma extends_refl st : extends st st.
Proof.
  exists [], [], [], [], []. rewrite !app_nil_r. destruct st; reflexivity.
Qed.

Lemma extends_trans st1 st2 st3 : extends st1 st2 -> extends st2 st3 -> extends st1 st3.
Proof.
  intros (a & b & c & d & e & ->) (a' & b' & c' & d' & e' & ->). simpl.
  exists (a ++ a'), (b ++ b'), (c ++ c'), (d ++ d'), (e ++ e').
  rewrite !app_assoc. reflexivity.
Qed.

Lemma record_extends movie_id c st : extends st (record movie_id c st).
Proof.
  unfold record.
  exists (new_companies c), (new_genres c), (pairs_of movie_id (new_genres c)),
    (pairs_of movie_id (new_companies c)),
    (match raised c with Some e => [RowError movie_id e] | None => [] end).
  reflexivity.
Qed.

(** X8: the loop only appends.  Whatever the rows hold and however the
    loop ends, each of the four lists and the log after the loop starts
    with what it held before: nothing recorded is removed, changed or
    moved. *)
Theorem row_loop_only_appends :
  forall movies_df st, extends st (fst (row_loop movies_df st)).
Proof.
  induction movies_df as [|row rest IH]; intros st; [apply extends_refl|].
  rewrite row_loop_cons.
  destruct (process_row_state row st) as [(i & _ & ->)| ->].
  - eapply extends_trans; [apply record_extends|apply IH].
  - apply extends_refl.
Qed.

(** ** One row (lines 105-124) *)

Lemma field_items_text row column s :
  Series_getitem row column = Ok (CStr s) ->
  field_items row column =
  iter match json_loads (replace "'" double_quote s) with
       | Done v => v
       | _ => JArr []
       end.
Proof.
  intros H. unfold field_items, rbind. rewrite H, parse_json_string_text. reflexivity.
Qed.

Lemma field_items_not_text row column c :
  Series_getitem row column = Ok c ->
  (forall s, c <> CStr s) ->
  field_items row column = Raise (AttributeError (cell_type_name c) "replace").
Proof.
  intros H Hc. unfold field_items, rbind. rewrite H.
  destruct c as [|z|s]; [reflexivity|reflexivity|].
  exfalso. exact (Hc s eq_refl).
Qed.

Lemma process_row_well_formed :
  forall row movie_id gitems gs citems cs st,
    Series_getitem row "id" = Ok movie_id ->
    field_items row "genres" = Ok gitems ->
    map entity_of gitems = map Ok gs ->
    field_items row "production_companies" = Ok citems ->
    map entity_of citems = map Ok cs ->
    process_row row st =
    (mkState (production_companies_list st ++ cs)
       (genres_list st ++ gs)
       (movie_genres_list st ++ pairs_of movie_id gs)
       (movie_production_companies_list st ++ pairs_of movie_id cs)
       (log st), Ok tt).
Proof.
  intros row movie_id gitems gs citems cs st Hid Hg Hgs Hc Hcs.
  rewrite (process_row_spec _ _ _ Hid). unfold contribution_of.
  rewrite Hg, (entities_until_failure_all _ _ Hgs), Hc,
    (entities_until_failure_all _ _ Hcs).
  unfold record; simpl. rewrite app_nil_r. reflexivity.
Qed.

(** X3: a row that has an id and whose two fields hold lists of entities
    that all have an id and a name records every genre and every company,
    each with its pair under the id of the row, in the order of the lists,
    and nothing is logged. *)
Theorem well_formed_row_is_recorded :
  forall row movie_id gitems gs citems cs st,
    Series_getitem row "id" = Ok movie_id ->
    field_items row "genres" = Ok gitems ->
    map entity_of gitems = map Ok gs ->
    field_items row "production_companies" = Ok citems ->
    map entity_of citems = map Ok cs ->
    process_row row st =
    (mkState (production_companies_list st ++ cs)
       (genres_list st ++ gs)
       (movie_genres_list st ++ pairs_of movie_id gs)
       (movie_production_companies_list st ++ pairs_of movie_id cs)
       (log st), Ok tt).
Proof.
  intros row movie_id gitems gs citems cs st Hid Hg Hgs Hc Hcs.
  rewrite (process_row_spec _ _ _ Hid). unfold contribution_of.
  rewrite Hg, (entities_until_failure_all _ _ Hgs), Hc,
    (entities_until_failure_all _ _ Hcs).
  unfold record; simpl. rewrite app_nil_r. reflexivity.
Qed.

Lemma well_formed_row_is_recorded_witness :
  Series_getitem toy_story "id" = Ok (CInt 862) /\
  field_items toy_story "genres" =
    Ok [JObj [("id", JInt 16); ("name", JStr "Animation")]] /\
  map entity_of [JObj [("id", JInt 16); ("name", JStr "Animation")]] =
    map Ok [(JInt 16, JStr "Animation")] /\
  field_items toy_story "production_companies" =
    Ok [JObj [("id", JInt 3); ("name", JStr "Pixar")]] /\
  map entity_of [JObj [("id", JInt 3); ("name", JStr "Pixar")]] =
    map Ok [(JInt 3, JStr "Pixar")] /\
  process_row toy_story initial =
    (mkState [(JInt 3, JStr "Pixar")] [(JInt 16, JStr "Animation")]
       [(CInt 862, JInt 16)] [(CInt 862, JInt 3)] [], Ok tt).
Proof.
  refine (conj eq_refl (conj eq_refl (conj eq_refl (conj eq_refl (conj eq_refl _))))).
  exact (well_formed_row_is_recorded toy_story (CInt 862)
           [JObj [("id", JInt 16); ("name", JStr "Animation")]]
           [(JInt 16, JStr "Animation")]
           [JObj [("id", JInt 3); ("name", JStr "Pixar")]]
           [(JInt 3, JStr "Pixar")] initial
           eq_refl eq_refl eq_refl eq_refl eq_refl).
Defined.

(** X4: a field whose text the decoder refuses counts as an empty list,
    silently.  When the genres of a row that has an id do not decode, the
    row adds no genre, nothing is logged for it, and its production
    companies are still recorded in full; and the other way round when the
    production companies do not decode. *)
Theorem undecodable_field_is_skipped_silently :
  (forall row movie_id s citems cs st,
      Series_getitem row "id" = Ok movie_id ->
      Series_getitem row "genres" = Ok (CStr s) ->
      json_loads (replace "'" double_quote s) = DecodeError ->
      field_items row "production_companies" = Ok citems ->
      map entity_of citems = map Ok cs ->
      process_row row st =
      (mkState (production_companies_list st ++ cs) (genres_list st)
         (movie_genres_list st)
         (movie_production_companies_list st ++ pairs_of movie_id cs)
         (log st), Ok tt)) /\
  (forall row movie_id gitems gs s st,
      Series_getitem row "id" = Ok movie_id ->
      field_items row "genres" = Ok gitems ->
      map entity_of gitems = map Ok gs ->
      Series_getitem row "production_companies" = Ok (CStr s) ->
      json_loads (replace "'" double_quote s) = DecodeError ->
      process_row row st =
      (mkState (production_companies_list st) (genres_list st ++ gs)
         (movie_genres_list st ++ pairs_of movie_id gs)
         (movie_production_companies_list st)
         (log st), Ok tt)).
Proof.
  split.
  - intros row movie_id s citems cs st Hid Hg Hd Hc Hcs.
    assert (Hg' : field_items row "genres" = Ok []).
    { rewrite (field_items_text _ _ _ Hg), Hd. reflexivity. }
    rewrite (process_row_well_formed row movie_id [] [] citems cs st
               Hid Hg' eq_refl Hc Hcs).
    simpl. rewrite !app_nil_r. reflexivity.
  - intros row movie_id gitems gs s st Hid Hg Hgs Hc Hd.
    assert (Hc' : field_items row "production_companies" = Ok []).
    { rewrite (field_items_text _ _ _ Hc), Hd. reflexivity. }
    rewrite (process_row_well_formed row movie_id gitems gs [] [] st
               Hid Hg Hgs Hc' eq_refl).
    simpl. rewrite !app_nil_r. reflexivity.
Qed.

Lemma undecodable_field_is_skipped_silently_witness :
  Series_getitem unquoted_genres "id" = Ok (CInt 862) /\
  Series_getitem unquoted_genres "genres" = Ok (CStr "[{id: 16, name: Animation}]") /\
  json_loads (replace "'" double_quote "[{id: 16, name: Animation}]") = DecodeError /\
  field_items unquoted_genres "production_companies" =
    Ok [JObj [("id", JInt 3); ("name", JStr "Pixar")]] /\
  map entity_of [JObj [("id", JInt 3); ("name", JStr "Pixar")]] =
    map Ok [(JInt 3, JStr "Pixar")] /\
  process_row unquoted_genres initial =
    (mkState [(JInt 3, JStr "Pixar")] [] [] [(CInt 862, JInt 3)] [], Ok tt).
Proof.
  refine (conj eq_refl (conj eq_refl (conj eq_refl (conj eq_refl (conj eq_refl _))))).
  exact (proj1 undecodable_field_is_skipped_silently unquoted_genres (CInt 862)
           "[{id: 16, name: Animation}]"
           [JObj [("id", JInt 3); ("name", JStr "Pixar")]]
           [(JInt 3, JStr "Pixar")] initial
           eq_refl eq_refl eq_refl eq_refl eq_refl).
Defined.

(** X5: a cell that holds no text is not treated as an empty list.  When
    the genres cell of a row that has an id is empty in the source (NaN)
    or a number, the attribute error of [parse_json_string] ends the row:
    it is logged, no genre is recorded and the production companies of
    the row are not recorded either.  When it is the production companies
    cell, the genres of the row are already recorded and the row is
    logged. *)
Theorem cell_without_text_ends_the_row :
  (forall row movie_id c st,
      Series_getitem row "id" = Ok movie_id ->
      Series_getitem row "genres" = Ok c ->
      (forall s, c <> CStr s) ->
      process_row row st =
      (mkState (production_companies_list st) (genres_list st)
         (movie_genres_list st) (movie_production_companies_list st)
         (log st ++ [RowError movie_id (AttributeError (cell_type_name c) "replace")]),
       Ok tt)) /\
  (forall row movie_id gitems gs c st,
      Series_getitem row "id" = Ok movie_id ->
      field_items row "genres" = Ok gitems ->
      map entity_of gitems = map Ok gs ->
      Series_getitem row "production_companies" = Ok c ->
      (forall s, c <> CStr s) ->
      process_row row st =
      (mkState (production_companies_list st) (genres_list st ++ gs)
         (movie_genres_list st ++ pairs_of movie_id gs)
         (movie_production_companies_list st)
         (log st ++ [RowError movie_id (AttributeError (cell_type_name c) "replace")]),
       Ok tt)).
Proof.
  split.
  - intros row movie_id c st Hid Hg Hc.
    rewrite (process_row_spec _ _ _ Hid). unfold contribution_of.
    rewrite (field_items_not_text _ _ _ Hg Hc).
    unfold record; simpl. rewrite !app_nil_r. reflexivity.
  - intros row movie_id gitems gs c st Hid Hg Hgs Hc Hnt.
    rewrite (process_row_spec _ _ _ Hid). unfold contribution_of.
    rewrite Hg, (entities_until_failure_all _ _ Hgs),
      (field_items_not_text _ _ _ Hc Hnt).
    unfold record; simpl. rewrite !app_nil_r. reflexivity.
Qed.

Lemma cell_without_text_ends_the_row_witness :
  Series_getitem null_genres "id" = Ok (CInt 862) /\
  Series_getitem null_genres "genres" = Ok CNaN /\
  (forall s, CNaN <> CStr s) /\
  process_row null_genres initial =
    (mkState [] [] [] []
       [RowError (CInt 862) (AttributeError "float" "replace")], Ok tt).
Proof.
  assert (H : forall s, CNaN <> CStr s) by (intros s; discriminate).
  refine (conj eq_refl (conj eq_refl (conj H _))).
  exact (proj1 cell_without_text_ends_the_row null_genres (CInt 862) CNaN initial
           eq_refl eq_refl H).
Defined.

(** ** The tables (lines 127-137) *)

Lemma drop_duplicates_In {A} (eqb : A -> A -> bool) :
  (forall x y, eqb x y = true <-> x = y) ->
  forall l x, In x (drop_duplicates eqb l) <-> In x l.
Proof.
  intros Heq l x. split.
  - intros H. apply (@drop_seen_In A A eqb (fun y => y) Heq) in H. tauto.
  - intros H.
    destruct (drop_duplicates_first_seen_once eqb Heq l) as (Hone & _ & _).
    specialize (Hone x H).
    destruct (filter (eqb x) (drop_duplicates eqb l)) as [|y r] eqn:E; [discriminate|].
    assert (Hy : In y (filter (eqb x) (drop_duplicates eqb l)))
      by (rewrite E; left; reflexivity).
    apply filter_In in Hy as [Hy Hxy]. apply Heq in Hxy. subst y. exact Hy.
Qed.

Lemma json_pair_eqb_eq :
  forall p q : json * json, pair_eqb json_eqb json_eqb p q = true <-> p = q.
Proof. apply pair_eqb_eq; apply json_eqb_eq. Qed.

Lemma bridge_pair_eqb_eq :
  forall p q : cell * json, pair_eqb cell_eqb json_eqb p q = true <-> p = q.
Proof. apply pair_eqb_eq; [apply cell_eqb_eq|apply json_eqb_eq]. Qed.

Lemma hash_column_scalars col :
  hash_column col = Ok tt -> Forall (fun v => is_scalar v = true) col.
Proof.
  induction col as [|v r IH]; simpl; [constructor|].
  destruct v; try discriminate; intros H; constructor; auto.
Qed.

Lemma entity_table_ok index records table :
  entity_table index records = Ok table ->
  table = drop_duplicates (pair_eqb json_eqb json_eqb) records /\
  table <> [] /\
  Forall (fun v => is_scalar v = true) (map fst records) /\
  Forall (fun v => is_scalar v = true) (map snd records).
Proof.
  unfold entity_table.
  destruct (hash_column (map fst records)) as [[]|] eqn:E1; [|discriminate].
  destruct (hash_column (map snd records)) as [[]|] eqn:E2; [|discriminate].
  destruct (drop_duplicates (pair_eqb json_eqb json_eqb) records) as [|x r];
    [discriminate|].
  intros H; inversion H; subst.
  repeat split; [discriminate | apply hash_column_scalars, E1
                 | apply hash_column_scalars, E2].
Qed.

Lemma bridge_table_scalars records table :
  bridge_table records = Ok table ->
  Forall (fun v => is_scalar v = true) (map snd records).
Proof.
  unfold bridge_table.
  destruct (hash_column (map snd records)) as [[]|] eqn:E; [|discriminate].
  intros _. apply hash_column_scalars, E.
Qed.



Lemma Forall_drop_duplicates {A} (eqb : A -> A -> bool) (P : A -> Prop) l :
  Forall P l -> Forall P (drop_duplicates eqb l).
Proof.
  unfold drop_duplicates, drop_duplicates_subset. generalize (@nil A).
  induction l as [|x r IH]; intros seen H; simpl; [constructor|].
  inversion H; subst.
  destruct (existsb (eqb x) seen); [apply IH; assumption|].
  constructor; [assumption|apply IH; assumption].
Qed.

Lemma Forall_map_fst_snd {A B} (P : A -> Prop) (Q : B -> Prop) (l : list (A * B)) :
  Forall P (map fst l) -> Forall Q (map snd l) ->
  Forall (fun p => P (fst p) /\ Q (snd p)) l.
Proof.
  induction l as [|[a b] r IH]; simpl; intros Hp Hq; [constructor|].
  inversion Hp; inversion Hq; subst. constructor; [split; assumption|auto].
Qed.

(** X11: the tables that a run writes hold only values that can be
    hashed: no id and no name of an entity table, and no entity id of a
    bridge table, is a list or a dict.  A run in which such a value was
    recorded ends on the exception of [drop_duplicates] instead. *)
Theorem written_tables_hold_scalars :
  forall movies_df t,
    snd (main movies_df) = Ok t ->
    Forall (fun r => is_scalar (fst r) = true /\ is_scalar (snd r) = true) (genres t) /\
    Forall (fun r => is_scalar (fst r) = true /\ is_scalar (snd r) = true)
      (production_companies t) /\
    Forall (fun p => is_scalar (snd p) = true) (movie_genres t) /\
    Forall (fun p => is_scalar (snd p) = true) (movie_production_companies t).
Proof.
  intros movies_df t H.
  apply main_ok, build_tables_ok in H as (Hc & Hg & Hmg & Hmc & _).
  apply entity_table_ok in Hc as (-> & _ & Hc1 & Hc2), Hg as (-> & _ & Hg1 & Hg2).
  pose proof (bridge_table_scalars _ _ Hmg) as Hs1.
  pose proof (bridge_table_scalars _ _ Hmc) as Hs2.
  apply bridge_table_ok in Hmg, Hmc. rewrite Hmg, Hmc.
  repeat split; apply Forall_drop_duplicates.
  - apply (Forall_map_fst_snd (fun v => is_scalar v = true)
             (fun v => is_scalar v = true)); assumption.
  - apply (Forall_map_fst_snd (fun v => is_scalar v = true)
             (fun v => is_scalar v = true)); assumption.
  - apply Forall_map in Hs1. exact Hs1.
  - apply Forall_map in Hs2. exact Hs2.
Qed.

Lemma written_tables_hold_scalars_witness :
  snd (main repeated) = Ok repeated_tables /\
  Forall (fun r => is_scalar (fst r) = true /\ is_scalar (snd r) = true)
    (genres repeated_tables).
Proof.
  split; [reflexivity|].
  exact (proj1 (written_tables_hold_scalars repeated repeated_tables eq_refl)).
Defined.

(** X12: a source from which no production company, or no genre, is
    recorded is never written: the frame built from an empty list has no
    column to index, and the run ends on that exception (or on the one
    that left the loop).  The empty source is such a source. *)
Theorem nothing_recorded_nothing_written :
  forall movies_df,
    production_companies_list (fst (row_loop movies_df initial)) = [] \/
    genres_list (fst (row_loop movies_df initial)) = [] ->
    exists e, snd (main movies_df) = Raise e.
Proof.
  intros movies_df H.
  destruct (snd (main movies_df)) as [t|e] eqn:E; [|eauto].
  exfalso.
  apply main_ok, build_tables_ok in E as (Hc & Hg & _).
  apply entity_table_ok in Hc as (Hc & Hcn & _), Hg as (Hg & Hgn & _).
  destruct H as [H|H]; rewrite H in *; [apply Hcn|apply Hgn]; assumption.
Qed.

Lemma nothing_recorded_nothing_written_witness :
  (production_companies_list (fst (row_loop [null_companies] initial)) = [] \/
   genres_list (fst (row_loop [null_companies] initial)) = []) /\
  snd (main [null_companies]) = Raise (KeyError "company_id") /\
  exists e, snd (main [null_companies]) = Raise e.
Proof.
  assert (H : production_companies_list (fst (row_loop [null_companies] initial)) = [] \/
              genres_list (fst (row_loop [null_companies] initial)) = [])
    by (left; reflexivity).
  refine (conj H (conj eq_refl _)).
  exact (nothing_recorded_nothing_written [null_companies] H).
Defined.

(** X13: the tables that a run writes refer to each other.  Every entity
    id of a row of a bridge table is the id of a row of the entity table,
    and every row of an entity table is referred to by a row of the
    bridge table. *)
Theorem written_bridges_match_entities :
  forall movies_df t,
    snd (main movies_df) = Ok t ->
    (forall p, In p (movie_genres t) -> In (snd p) (map fst (genres t))) /\
    (forall r, In r (genres t) -> In (fst r) (map snd (movie_genres t))) /\
    (forall p, In p (movie_production_companies t) ->
               In (snd p) (map fst (production_companies t))) /\
    (forall r, In r (production_companies t) ->
               In (fst r) (map snd (movie_production_companies t))).
Proof.
  intros movies_df t H.
  apply main_ok, build_tables_ok in H as (Hc & Hg & Hmg & Hmc & _).
  apply entity_table_ok in Hc as [-> _], Hg as [-> _].
  apply bridge_table_ok in Hmg, Hmc. rewrite Hmg, Hmc.
  destruct (row_loop_in_step movies_df initial) as [Sg Sc]; [split; reflexivity|].
  assert (fwd : forall (pairs : list (cell * json)) (records : list (json * json)),
             map snd pairs = map fst records ->
             forall p, In p (drop_duplicates (pair_eqb cell_eqb json_eqb) pairs) ->
                       In (snd p)
                          (map fst (drop_duplicates (pair_eqb json_eqb json_eqb) records))).
  { intros pairs records E p Hp.
    apply (proj1 (drop_duplicates_In _ bridge_pair_eqb_eq _ _)) in Hp.
    apply (in_map snd) in Hp. rewrite E in Hp.
    apply in_map_iff in Hp as [r [Hr Hin]].
    apply in_map_iff. exists r. split; [exact Hr|].
    apply (proj2 (drop_duplicates_In _ json_pair_eqb_eq _ _)), Hin. }
  assert (bwd : forall (pairs : list (cell * json)) (records : list (json * json)),
             map snd pairs = map fst records ->
             forall r, In r (drop_duplicates (pair_eqb json_eqb json_eqb) records) ->
                       In (fst r)
                          (map snd (drop_duplicates (pair_eqb cell_eqb json_eqb) pairs))).
  { intros pairs records E r Hr.
    apply (proj1 (drop_duplicates_In _ json_pair_eqb_eq _ _)) in Hr.
    apply (in_map fst) in Hr. rewrite <- E in Hr.
    apply in_map_iff in Hr as [p [Hp Hin]].
    apply in_map_iff. exists p. split; [exact Hp|].
    apply (proj2 (drop_duplicates_In _ bridge_pair_eqb_eq _ _)), Hin. }
  repeat split; [apply (fwd _ _ Sg) | apply (bwd _ _ Sg)
                 | apply (fwd _ _ Sc) | apply (bwd _ _ Sc)].
Qed.

Lemma written_bridges_match_entities_witness :
  snd (main repeated) = Ok repeated_tables /\
  In (CInt 8844, JInt 35) (movie_genres repeated_tables) /\
  In (JInt 35) (map fst (genres repeated_tables)).
Proof.
  assert (H : In (CInt 8844, JInt 35) (movie_genres repeated_tables))
    by (right; right; left; reflexivity).
  refine (conj eq_refl (conj H _)).
  exact (proj1 (written_bridges_match_entities repeated repeated_tables eq_refl)
           (CInt 8844, JInt 35) H).
Defined.

Lemma main_ok_loop movies_df t :
  snd (main movies_df) = Ok t -> snd (row_loop movies_df initial) = Ok tt.
Proof.
  unfold main.
  destruct (row_loop movies_df initial) as [st [[]|e]]; simpl; [reflexivity|discriminate].
Qed.

Lemma row_loop_ok_ids movies_df : forall st,
  snd (row_loop movies_df st) = Ok tt ->
  Forall (fun row => has_column row "id" = true) movies_df.
Proof.
  induction movies_df as [|row rest IH]; intros st H; [constructor|].
  rewrite row_loop_cons in H.
  destruct (process_row_state row st) as [(i & Hi & E)|E]; rewrite E in H.
  - constructor; [unfold has_column; rewrite Hi; reflexivity|exact (IH _ H)].
  - discriminate.
Qed.

Lemma map_drop_seen {A K} (eqb : K -> K -> bool) (key : A -> K) l : forall seen,
  map key (drop_seen eqb key seen l) = drop_seen eqb (fun k => k) seen (map key l).
Proof.
  induction l as [|x r IH]; intros seen; simpl; [reflexivity|].
  destruct (existsb (eqb (key x)) seen); simpl; rewrite IH; reflexivity.
Qed.

Lemma select_all_ids movies_df : forall ms,
  select_all movies_df = Ok ms -> map movie_id ms = source_ids movies_df.
Proof.
  induction movies_df as [|row rest IH]; intros ms H; simpl in H.
  - inversion H; reflexivity.
  - unfold rbind in H.
    destruct (select_columns row) as [m|] eqn:Em; [|discriminate].
    destruct (select_all rest) as [ms'|] eqn:Er; [|discriminate].
    inversion H; subst. simpl.
    rewrite (select_columns_id _ _ Em), (IH _ eq_refl). reflexivity.
Qed.

Lemma movies_table_ids movies_df table :
  movies_table movies_df = Ok table ->
  map movie_id table = drop_duplicates cell_eqb (source_ids movies_df).
Proof.
  unfold movies_table, rbind.
  destruct (select_all movies_df) as [ms|] eqn:E; [|discriminate].
  intros H; inversion H; subst.
  unfold drop_duplicates, drop_duplicates_subset.
  rewrite map_drop_seen, (select_all_ids _ _ E). reflexivity.
Qed.

Lemma source_ids_In movies_df row i :
  In row movies_df -> Series_getitem row "id" = Ok i -> In i (source_ids movies_df).
Proof.
  intros Hin Hi. unfold source_ids. apply in_flat_map.
  exists row. split; [exact Hin|]. rewrite Hi. left; reflexivity.
Qed.

(** X15: the movie ids of the fact table that a run writes are the ids
    of the source rows with the repetitions dropped, in the order in which
    each id first occurs in the source. *)
Theorem written_movies_follow_source_order :
  forall movies_df t,
    snd (main movies_df) = Ok t ->
    map movie_id (movies t) = drop_duplicates cell_eqb (source_ids movies_df).
Proof.
  intros movies_df t H.
  apply main_ok, build_tables_ok in H as (_ & _ & _ & _ & H).
  exact (movies_table_ids _ _ H).
Qed.

Lemma written_movies_follow_source_order_witness :
  snd (main repeated) = Ok repeated_tables /\
  source_ids repeated = [CInt 862; CInt 8844; CInt 862] /\
  map movie_id (movies repeated_tables) = [CInt 862; CInt 8844].
Proof.
  refine (conj eq_refl (conj eq_refl _)).
  exact (written_movies_follow_source_order repeated repeated_tables eq_refl).
Defined.

Lemma pairs_of_fst movie_id es p : In p (pairs_of movie_id es) -> fst p = movie_id.
Proof.
  unfold pairs_of. intros H. apply in_map_iff in H as [e [<- _]]. reflexivity.
Qed.

(** X14: every movie id of a row of a bridge table that a run writes is
    the id of a row of the fact table written by the same run. *)
Theorem written_bridges_refer_to_movies :
  forall movies_df t,
    snd (main movies_df) = Ok t ->
    (forall p, In p (movie_genres t) -> In (fst p) (map movie_id (movies t))) /\
    (forall p, In p (movie_production_companies t) ->
               In (fst p) (map movie_id (movies t))).
Proof.
  intros movies_df t H.
  pose proof (row_loop_ok_ids _ _ (main_ok_loop _ _ H)) as Hids.
  destruct (row_loop_contributions movies_df initial Hids)
    as (_ & _ & _ & Hmg & Hmc & _).
  apply main_ok, build_tables_ok in H as (_ & _ & Emg & Emc & Hm).
  apply bridge_table_ok in Emg, Emc. rewrite Emg, Emc, Hmg, Hmc.
  rewrite (movies_table_ids _ _ Hm). simpl.
  split; intros p Hp;
    apply (proj1 (drop_duplicates_In _ bridge_pair_eqb_eq _ _)) in Hp;
    apply in_flat_map in Hp as [row [Hrow Hp]];
    apply (proj2 (drop_duplicates_In _ cell_eqb_eq _ _)).
  - unfold row_genre_pairs in Hp.
    destruct (Series_getitem row "id") as [i|] eqn:Hi; [|destruct Hp].
    rewrite (pairs_of_fst _ _ _ Hp). exact (source_ids_In _ _ _ Hrow Hi).
  - unfold row_company_pairs in Hp.
    destruct (Series_getitem row "id") as [i|] eqn:Hi; [|destruct Hp].
    rewrite (pairs_of_fst _ _ _ Hp). exact (source_ids_In _ _ _ Hrow Hi).
Qed.

Lemma written_bridges_refer_to_movies_witness :
  snd (main repeated) = Ok repeated_tables /\
  In (CInt 8844, JInt 35) (movie_genres repeated_tables) /\
  In (CInt 8844) (map movie_id (movies repeated_tables)).
Proof.
  assert (H : In (CInt 8844, JInt 35) (movie_genres repeated_tables))
    by (right; right; left; reflexivity).
  refine (conj eq_refl (conj H _)).
  exact (proj1 (written_bridges_refer_to_movies repeated repeated_tables eq_refl)
           (CInt 8844, JInt 35) H).
Defined.





(** ** [parse_json_string] on the notation of the dataset (lines 40-55) *)














































(** ** What a run writes and logs *)





